(** * camera.py: the Raspberry Pi camera controller

    A shallow embedding of [PiCameraController] and [main] from
    [camera.py], and the properties of its preview / still-capture state
    machine.

    The file binds [PiCameraController] and [main] twice (the whole module
    text is repeated from line 139 on); the later bindings are the ones in
    force when [main()] runs, so the embedding follows lines 153-472, and
    [script] follows the module body, which reaches [main()] twice
    (lines 472 and 609).

    How the collaborators are modelled.  The controller does nothing but call
    into [picamera2], [RPi.GPIO], [os], [time], [datetime] and [input].
    Every such call is recorded in a chronological [trace].  Whether the
    [n]-th call raises is decided by an oracle [fault], so that a theorem
    stated for every [Env] covers every pattern of device failures.  A call
    that raises has no other effect; [configure] that returns installs exactly
    the configuration it was given; [Picamera2()] that returns yields a
    handle with no configuration applied.  Console output ([print]) carries
    no state and is left out.

    Which errors are covered.  A collaborator call that raises, raises an
    error of class [Exception]: a device, driver or file-system error.  The
    interrupt key is delivered while [input()] waits, where the user of this
    console program presses it ([CtrlC]); an interrupt that lands in the
    middle of a device call, and the presses of the hardware button that the
    GPIO library delivers on its own thread during [main], are outside the
    embedding.  Statements below that say a method "never raises" or that
    [main] "always returns" are to be read within this scope.

    Text.  A line read from the keyboard is a list of Unicode code points.
    [str.strip] removes every character for which [str.isspace] holds, the
    no-break space and the other Unicode blanks included.  [str.lower] is
    computed on ASCII text; on any other text it is left to the environment,
    so a theorem stated for every [Env] holds whatever the Unicode tables
    say. *)

From Stdlib Require Import ZArith List String Ascii Bool Lia DecimalString.
Import ListNotations.
Local Open Scope string_scope.
Local Open Scope Z_scope.

(** ** Data *)

Definition Size : Type := (Z * Z)%type.

Definition Size_eqb (a b : Size) : bool :=
  (fst a =? fst b) && (snd a =? snd b).

Inductive UseCase := PreviewUse | StillUse.

(** A stream entry of a configuration dictionary, [{"size": .., "format": ..}]. *)
Record Stream := mkStream {
  size : Size;
  format : option string
}.

(** What [create_preview_configuration] / [create_still_configuration]
    are asked for: the [main] stream, the optional [lores] stream and the
    optional [buffer_count]. *)
Record Config := mkConfig {
  use_case : UseCase;
  main_stream : Stream;
  lores : option Stream;
  buffer_count : option Z
}.

Definition main_size (c : Config) : Size := size (main_stream c).

(** [datetime.now()] *)
Record DateTime := mkDateTime {
  year : nat; month : nat; day : nat;
  hour : nat; minute : nat; second : nat
}.

(** Python exceptions, as far as [except] clauses of the program tell them
    apart: [KeyboardInterrupt] is not an [Exception]. *)
Inductive Exn :=
| Exception (what : string)
| KeyboardInterrupt.

(** Calls that leave the program. *)
Inductive Event :=
| EvMakedirs (path : string)
| EvGpioSetmode
| EvGpioSetup (pin : Z)
| EvGpioAddEventDetect (pin : Z) (bouncetime : Z)
| EvGpioCleanup
| EvPicamera2
| EvCreatePreviewConfiguration (main : Size) (lo : Stream)
| EvCreateStillConfiguration (main : Size) (buffers : Z)
| EvCameraConfiguration
| EvCameraProperties
| EvConfigure (c : Config)
| EvStartPreview
| EvStopPreview
| EvStart
| EvStop
| EvCaptureFile (path : string)
| EvClose
| EvNow
| EvSleep (seconds : Z)
| EvGetsize (path : string)
| EvInput.

(** A [str] read from the keyboard: its Unicode code points. *)
Definition Text : Type := list N.

(** What arrives on standard input while [input()] waits: a line, or the
    interrupt key.  An exhausted list is end of file. *)
Inductive Stimulus :=
| Line (text : Text)
| CtrlC.

(** The behaviour of the collaborators, indexed by the number of calls made
    so far. *)
Record Env := mkEnv {
  fault : nat -> Event -> bool;     (* this call raises *)
  produces : nat -> bool;           (* this [capture_file] leaves a file *)
  clock : nat -> DateTime;          (* what [datetime.now()] reads *)
  unicode_lower : Text -> Text      (* [str.lower] on text that is not ASCII *)
}.

Record World := mkWorld {
  trace : list Event;               (* calls made, oldest first *)
  camera_config : option Config;    (* [picam2.camera_config] *)
  paths : list string;              (* what [os.path.exists] answers for *)
  stdin : list Stimulus
}.

(** The attributes of a [PiCameraController]; [None] is an attribute
    holding [None] or not assigned yet. *)
Record Self := mkSelf {
  button_pin : Z;
  preview_size : Size;
  still_size : Size;
  photos_dir : string;
  picam2 : option unit;
  is_running : bool;
  preview_active : bool;
  preview_config : option Config;
  still_config : option Config
}.

Record State := mkState {
  self : Self;
  world : World
}.

(** ** The monad of methods: state is kept when an exception is raised *)

Inductive Outcome (A : Type) :=
| Return (a : A)
| Raise (e : Exn).
Arguments Return {A} a.
Arguments Raise {A} e.

Definition M (A : Type) : Type := State -> Outcome A * State.

Definition ret {A} (a : A) : M A := fun s => (Return a, s).

Definition raise {A} (e : Exn) : M A := fun s => (Raise e, s).

Definition bind {A B} (m : M A) (k : A -> M B) : M B :=
  fun s =>
    match m s with
    | (Return a, s1) => k a s1
    | (Raise e, s1) => (Raise e, s1)
    end.

Notation "x <- m ;; k" := (bind m (fun x => k))
  (at level 61, m at next level, right associativity).
Notation "m ;; k" := (bind m (fun _ => k))
  (at level 61, right associativity).

(** [try: body except Exception: handler] *)
Definition try_except_Exception {A} (body : M A) (handler : string -> M A) : M A :=
  fun s =>
    match body s with
    | (Raise (Exception what), s1) => handler what s1
    | r => r
    end.

(** [try: body except KeyboardInterrupt: handler] *)
Definition try_except_KeyboardInterrupt {A} (body : M A) (handler : M A) : M A :=
  fun s =>
    match body s with
    | (Raise KeyboardInterrupt, s1) => handler s1
    | r => r
    end.

Definition when (b : bool) (m : M unit) : M unit :=
  if b then m else ret tt.

(** ** State access *)

Definition get_self : M Self := fun s => (Return (self s), s).

Definition set_world (w : World) (s : State) : State :=
  mkState (self s) w.

Definition set_is_running (b : bool) : M unit := fun s =>
  let o := self s in
  (Return tt,
   mkState (mkSelf (button_pin o) (preview_size o) (still_size o) (photos_dir o)
                   (picam2 o) b (preview_active o)
                   (preview_config o) (still_config o))
           (world s)).

Definition set_preview_active (b : bool) : M unit := fun s =>
  let o := self s in
  (Return tt,
   mkState (mkSelf (button_pin o) (preview_size o) (still_size o) (photos_dir o)
                   (picam2 o) (is_running o) b
                   (preview_config o) (still_config o))
           (world s)).

Definition set_picam2 (h : option unit) : M unit := fun s =>
  let o := self s in
  (Return tt,
   mkState (mkSelf (button_pin o) (preview_size o) (still_size o) (photos_dir o)
                   h (is_running o) (preview_active o)
                   (preview_config o) (still_config o))
           (world s)).

Definition set_preview_config (c : option Config) : M unit := fun s =>
  let o := self s in
  (Return tt,
   mkState (mkSelf (button_pin o) (preview_size o) (still_size o) (photos_dir o)
                   (picam2 o) (is_running o) (preview_active o)
                   c (still_config o))
           (world s)).

Definition set_still_config (c : option Config) : M unit := fun s =>
  let o := self s in
  (Return tt,
   mkState (mkSelf (button_pin o) (preview_size o) (still_size o) (photos_dir o)
                   (picam2 o) (is_running o) (preview_active o)
                   (preview_config o) c)
           (world s)).

(** ** Calls into the collaborators *)

Definition log (ev : Event) (w : World) : World :=
  mkWorld (trace w ++ [ev])%list (camera_config w) (paths w) (stdin w).

(** What a call that returns does to the world. *)
Definition effect (env : Env) (n : nat) (ev : Event) (w : World) : World :=
  match ev with
  | EvPicamera2 => mkWorld (trace w) None (paths w) (stdin w)
  | EvConfigure c => mkWorld (trace w) (Some c) (paths w) (stdin w)
  | EvMakedirs p => mkWorld (trace w) (camera_config w) (p :: paths w) (stdin w)
  | EvCaptureFile p =>
      if produces env n
      then mkWorld (trace w) (camera_config w) (p :: paths w) (stdin w)
      else w
  | _ => w
  end.

(** One call: it is recorded, then it either raises or takes effect.  What
    it raises is of class [Exception]; [KeyboardInterrupt] comes from
    [input] only. *)
Definition call (env : Env) (ev : Event) : M unit := fun s =>
  let n := List.length (trace (world s)) in
  let w := log ev (world s) in
  if fault env n ev
  then (Raise (Exception "device error"), set_world w s)
  else (Return tt, set_world (effect env n ev w) s).

(** A method call on [self.picam2]; on [None] it is an [AttributeError]. *)
Definition picam2_call (env : Env) (ev : Event) : M unit :=
  o <- get_self ;;
  match picam2 o with
  | Some _ => call env ev
  | None => raise (Exception "AttributeError")
  end.

(** [os.path.exists] *)
Definition path_exists (p : string) : M bool := fun s =>
  (Return (existsb (String.eqb p) (paths (world s))), s).

(** [datetime.now()] *)
Definition now (env : Env) : M DateTime := fun s =>
  let n := List.length (trace (world s)) in
  match call env EvNow s with
  | (Return _, s1) => (Return (clock env n), s1)
  | (Raise e, s1) => (Raise e, s1)
  end.

(** ** Strings *)

Definition digit (n : nat) : ascii := ascii_of_nat (48 + Nat.modulo n 10).

Definition pad2 (n : nat) : string :=
  String (digit (Nat.div n 10)) (String (digit n) EmptyString).

Definition pad4 (n : nat) : string :=
  String (digit (Nat.div n 1000)) (String (digit (Nat.div n 100)) (pad2 n)).

(** [strftime("%Y%m%d_%H%M%S")] *)
Definition strftime_Ymd_HMS (t : DateTime) : string :=
  pad4 (year t) ++ pad2 (month t) ++ pad2 (day t) ++ "_" ++
  pad2 (hour t) ++ pad2 (minute t) ++ pad2 (second t).

(** The code points of a literal. *)
Definition chars (s : string) : Text :=
  map (fun a => N.of_nat (nat_of_ascii a)) (list_ascii_of_string s).

(** [==] on [str] *)
Fixpoint Text_eqb (a b : Text) : bool :=
  match a, b with
  | [], [] => true
  | x :: a', y :: b' => N.eqb x y && Text_eqb a' b'
  | _, _ => false
  end.

(** [str.lower] for one ASCII character *)
Definition lower_ascii (c : N) : N :=
  if (N.leb 65 c && N.leb c 90)%bool then (c + 32)%N else c.

Definition is_ascii (c : N) : bool := N.ltb c 128.

(** [str.lower]: on ASCII text the letters [A]-[Z] are lowered one by one;
    any other text is lowered by the Unicode tables of the interpreter,
    which the environment stands for. *)
Definition lower (env : Env) (s : Text) : Text :=
  if forallb is_ascii s then map lower_ascii s else unicode_lower env s.

(** [str.isspace] for one code point: the characters [str.strip] removes *)
Definition is_space (c : N) : bool :=
  ((N.leb 9 c && N.leb c 13) || (N.leb 28 c && N.leb c 32) ||
   N.eqb c 133 || N.eqb c 160 || N.eqb c 5760 ||
   (N.leb 8192 c && N.leb c 8202) ||
   N.eqb c 8232 || N.eqb c 8233 || N.eqb c 8239 || N.eqb c 8287 ||
   N.eqb c 12288)%bool.

Fixpoint lstrip (s : Text) : Text :=
  match s with
  | [] => []
  | c :: r => if is_space c then lstrip r else s
  end.

Fixpoint rstrip (s : Text) : Text :=
  match s with
  | [] => []
  | c :: r =>
      match rstrip r with
      | [] => if is_space c then [] else [c]
      | r' => c :: r'
      end
  end.

(** [str.strip] *)
Definition strip (s : Text) : Text := rstrip (lstrip s).

(** ** PiCameraController *)

(** Reading an attribute that holds a configuration. *)
Definition get_attr {A} (field : Self -> option A) : M A :=
  o <- get_self ;;
  match field o with
  | Some a => ret a
  | None => raise (Exception "AttributeError")
  end.

(** [self.picam2.configure(self.<field>)] *)
Definition picam2_configure (env : Env) (field : Self -> option Config) : M unit :=
  o <- get_self ;;
  match picam2 o with
  | Some _ => c <- get_attr field ;; call env (EvConfigure c)
  | None => raise (Exception "AttributeError")
  end.

(** [self.picam2.camera_configuration()] *)
Definition camera_configuration (env : Env) : M (option Config) :=
  picam2_call env EvCameraConfiguration ;;
  fun s => (Return (camera_config (world s)), s).

(** [current_config['main']['size']]; subscripting [None] is a [TypeError]. *)
Definition main_size_of (c : option Config) : M Size :=
  match c with
  | Some c => ret (main_size c)
  | None => raise (Exception "TypeError")
  end.

Definition lores_request : Stream := mkStream (640, 480) (Some "YUV420").

Definition preview_configuration (sz : Size) : Config :=
  mkConfig PreviewUse (mkStream sz None) (Some lores_request) None.

Definition still_configuration (sz : Size) : Config :=
  mkConfig StillUse (mkStream sz None) None (Some 1).

(** lines 186-190 *)
Definition _create_photos_dir (env : Env) : M unit :=
  o <- get_self ;;
  there <- path_exists (photos_dir o) ;;
  when (negb there) (call env (EvMakedirs (photos_dir o))).

(** lines 192-209 *)
Definition _setup_gpio (env : Env) : M unit :=
  try_except_Exception
    (o <- get_self ;;
     call env EvGpioSetmode ;;
     call env (EvGpioSetup (button_pin o)) ;;
     call env (EvGpioAddEventDetect (button_pin o) 300))
    (fun _ => ret tt).

(** lines 211-232 *)
Definition _initialize_camera (env : Env) : M unit :=
  try_except_Exception
    (call env EvPicamera2 ;;
     set_picam2 (Some tt) ;;
     o <- get_self ;;
     picam2_call env (EvCreatePreviewConfiguration (preview_size o) lores_request) ;;
     set_preview_config (Some (preview_configuration (preview_size o))) ;;
     picam2_call env (EvCreateStillConfiguration (still_size o) 1) ;;
     set_still_config (Some (still_configuration (still_size o))))
    (fun what => raise (Exception what)).

(** lines 158-184 *)
Definition __init__ (env : Env) : M unit :=
  _create_photos_dir env ;;
  _setup_gpio env ;;
  _initialize_camera env.

Definition blank (pin : Z) (preview still : Size) : Self :=
  mkSelf pin preview still "photos" None false false None None.

(** [PiCameraController(button_pin, preview_size, still_size)] *)
Definition PiCameraController (env : Env) (pin : Z) (preview still : Size)
    (w : World) : Outcome unit * State :=
  __init__ env (mkState (blank pin preview still) w).

(** lines 245-260 *)
Definition start_preview (env : Env) : M unit :=
  try_except_Exception
    (o <- get_self ;;
     if negb (preview_active o) then
       picam2_configure env preview_config ;;
       picam2_call env EvStartPreview ;;
       picam2_call env EvStart ;;
       set_preview_active true ;;
       set_is_running true
     else ret tt)
    (fun _ => ret tt).

(** lines 262-275 *)
Definition stop_preview (env : Env) : M unit :=
  try_except_Exception
    (o <- get_self ;;
     if preview_active o then
       picam2_call env EvStopPreview ;;
       picam2_call env EvStop ;;
       set_preview_active false
     else ret tt)
    (fun _ => ret tt).

(** [f"{self.photos_dir}/photo_{timestamp}.jpg"] *)
Definition photo_path (dir : string) (t : DateTime) : string :=
  dir ++ "/photo_" ++ strftime_Ymd_HMS t ++ ".jpg".

(** lines 285-331, the body of the [try] *)
Definition capture_photo_body (env : Env) : M (option string) :=
  t <- now env ;;
  o <- get_self ;;
  let filename := photo_path (photos_dir o) t in
  current_config <- camera_configuration env ;;
  current_size <- main_size_of current_config ;;
  still <- get_attr still_config ;;
  let needs_config_switch := negb (Size_eqb current_size (main_size still)) in
  (if needs_config_switch then
     o <- get_self ;;
     let was_preview_active := preview_active o in
     when (preview_active o) (picam2_call env EvStopPreview) ;;
     picam2_call env EvStop ;;
     picam2_configure env still_config ;;
     picam2_call env EvStart ;;
     when was_preview_active (picam2_call env EvStartPreview) ;;
     call env (EvSleep 1)
   else ret tt) ;;
  picam2_call env (EvCaptureFile filename) ;;
  o <- get_self ;;
  when (needs_config_switch && preview_active o)
    (picam2_call env EvStopPreview ;;
     picam2_call env EvStop ;;
     picam2_configure env preview_config ;;
     picam2_call env EvStartPreview ;;
     picam2_call env EvStart) ;;
  there <- path_exists filename ;;
  if there then
    call env (EvGetsize filename) ;;
    ret (Some filename)
  else ret None.

(** lines 277-335 *)
Definition capture_photo (env : Env) : M (option string) :=
  try_except_Exception (capture_photo_body env) (fun _ => ret None).

(** lines 234-243 *)
Definition _button_pressed (env : Env) (channel : Z) : M unit :=
  o <- get_self ;;
  if is_running o then
    capture_photo env ;; ret tt
  else ret tt.

(** lines 337-351 *)
Definition apply_post_processing (image_path : string) : M string :=
  ret image_path.

(** lines 353-366; the properties mapping is only printed, its entries are
    not modelled. *)
Definition get_camera_info (env : Env) : M (option unit) :=
  try_except_Exception
    (o <- get_self ;;
     match picam2 o with
     | Some _ => call env EvCameraProperties ;; ret (Some tt)
     | None => ret None
     end)
    (fun _ => ret None).

(** lines 416-424 *)
Definition _show_status : M unit := ret tt.

(** [input("Command (c/s/q): ")] when [arrives] is next on standard input *)
Definition input (arrives : Stimulus) : M Text := fun s =>
  let w := world s in
  let s1 := set_world (mkWorld (trace w ++ [EvInput])%list (camera_config w)
                               (paths w) (tl (stdin w))) s in
  match arrives with
  | Line text => (Return text, s1)
  | CtrlC => (Raise KeyboardInterrupt, s1)
  end.

(** [input] at end of file *)
Definition input_eof : M unit := fun s =>
  (Raise (Exception "EOFError"), set_world (log EvInput (world s)) s).

Inductive Flow := Continue | Break.

(** lines 393-410, one turn of the [while] *)
Definition loop_body (env : Env) (arrives : Stimulus) : M Flow :=
  line <- input arrives ;;
  let command := strip (lower env line) in
  if Text_eqb command (chars "c") then
    filename <- capture_photo env ;;
    match filename with
    | Some f => apply_post_processing f ;; ret Continue
    | None => ret Continue
    end
  else if Text_eqb command (chars "s") then
    _show_status ;; ret Continue
  else if Text_eqb command (chars "q") then
    set_is_running false ;; ret Break
  else ret Continue.

(** lines 392-410: [while self.is_running], one turn per stimulus *)
Fixpoint while_is_running (env : Env) (pending : list Stimulus) : M unit :=
  fun s =>
    if is_running (self s) then
      match pending with
      | [] => input_eof s
      | arrives :: rest =>
          match loop_body env arrives s with
          | (Return Continue, s1) => while_is_running env rest s1
          | (Return Break, s1) => (Return tt, s1)
          | (Raise e, s1) => (Raise e, s1)
          end
      end
    else (Return tt, s).

(** lines 368-414 *)
Definition run_interactive_mode (env : Env) : M unit :=
  get_camera_info env ;;
  start_preview env ;;
  try_except_KeyboardInterrupt
    (fun s => while_is_running env (stdin (world s)) s)
    (set_is_running false).

(** lines 426-442 *)
Definition cleanup (env : Env) : M unit :=
  try_except_Exception
    (set_is_running false ;;
     o <- get_self ;;
     when (preview_active o) (stop_preview env) ;;
     match picam2 o with
     | Some _ => call env EvClose
     | None => ret tt
     end ;;
     call env EvGpioCleanup)
    (fun _ => ret tt).

(** ** The program *)

Definition default_preview_size : Size := (1640, 1232).
Definition default_still_size : Size := (4056, 3040).

(** lines 445-466.  [camera] stays [None] when the constructor raises, and
    then [finally] has nothing to clean up. *)
Definition main (env : Env) (w : World) : Outcome unit * World :=
  match PiCameraController env 0 default_preview_size default_still_size w with
  | (Raise _, s) =>
      (* except KeyboardInterrupt / except Exception; finally: camera is None *)
      (Return tt, world s)
  | (Return _, camera) =>
      match run_interactive_mode env camera with
      | (_, s) =>
          (* returned, or except KeyboardInterrupt / except Exception;
             finally: camera.cleanup() *)
          match cleanup env s with
          | (Return _, s') => (Return tt, world s')
          | (Raise e, s') => (Raise e, world s')
          end
      end
  end.

(** The module body: [main()] at line 472, and again at line 609. *)
Definition script (env : Env) (w : World) : Outcome unit * World :=
  match main env w with
  | (Return _, w1) => main env w1
  | (Raise e, w1) => (Raise e, w1)
  end.

(** The status the interpreter exits with. *)
Definition exit_status (r : Outcome unit) : Z :=
  match r with
  | Return _ => 0
  | Raise (Exception _) => 1
  | Raise KeyboardInterrupt => 130
  end.

(** ** Vocabulary of the statements *)

Definition after {A} (m : M A) (s : State) : State := snd (m s).

Definition result {A} (m : M A) (s : State) : Outcome A := fst (m s).

(** The configuration the device holds. *)
Definition applied (s : State) : option Config := camera_config (world s).

(** What a client can see of a session. *)
Definition observable (s : State) : bool * bool * option Config :=
  (preview_active (self s), is_running (self s), applied s).

(** The calls made between two worlds of one run. *)
Definition new_events (before later : World) : list Event :=
  skipn (List.length (trace before)) (trace later).

Definition is_input (ev : Event) : bool :=
  match ev with EvInput => true | _ => false end.

(** The command loop was entered: [input()] was reached. *)
Definition entered_loop (evs : list Event) : bool := existsb is_input evs.

Definition is_capture_file (ev : Event) : bool :=
  match ev with EvCaptureFile _ => true | _ => false end.

Definition is_configure (ev : Event) : bool :=
  match ev with EvConfigure _ => true | _ => false end.

Definition is_gpio (ev : Event) : bool :=
  match ev with
  | EvGpioSetmode | EvGpioSetup _ | EvGpioAddEventDetect _ _ | EvGpioCleanup => true
  | _ => false
  end.

(** The calls that precede the first [capture_file], when there is one. *)
Fixpoint before_capture (evs : list Event) : option (list Event) :=
  match evs with
  | [] => None
  | EvCaptureFile _ :: _ => Some []
  | ev :: rest =>
      match before_capture rest with
      | Some l => Some (ev :: l)
      | None => None
      end
  end.

Definition file_exists (p : string) (s : State) : bool :=
  existsb (String.eqb p) (paths (world s)).

(** The name [capture_photo] gives the photo when called in [s]. *)
Definition filename_at (env : Env) (s : State) : string :=
  photo_path (photos_dir (self s)) (clock env (List.length (trace (world s)))).

(** The switch to the still configuration, as [capture_photo] issues it. *)
Definition switch_to_still (preview_on : bool) (still : Config) : list Event :=
  ((if preview_on then [EvStopPreview] else []) ++
   [EvStop; EvConfigure still; EvStart] ++
   (if preview_on then [EvStartPreview] else []) ++
   [EvSleep 1])%list.

(** What can be done to a constructed controller. *)
Inductive Action :=
| DoStartPreview
| DoStopPreview
| DoCapturePhoto
| DoButtonPressed (channel : Z)
| DoGetCameraInfo
| DoShowStatus
| DoCommand (arrives : Stimulus)
| DoRunInteractiveMode
| DoCleanup.

Definition perform (env : Env) (a : Action) (s : State) : State :=
  match a with
  | DoStartPreview => after (start_preview env) s
  | DoStopPreview => after (stop_preview env) s
  | DoCapturePhoto => after (capture_photo env) s
  | DoButtonPressed channel => after (_button_pressed env channel) s
  | DoGetCameraInfo => after (get_camera_info env) s
  | DoShowStatus => after _show_status s
  | DoCommand arrives => after (loop_body env arrives) s
  | DoRunInteractiveMode => after (run_interactive_mode env) s
  | DoCleanup => after (cleanup env) s
  end.

Definition session (env : Env) (acts : list Action) (s : State) : State :=
  fold_left (fun s a => perform env a s) acts s.

(** The call did what it is for: preview is on after [start_preview], off
    after [stop_preview]. *)
Definition takes_effect (a : Action) (s' : State) : bool :=
  match a with
  | DoStartPreview => preview_active (self s')
  | DoStopPreview => negb (preview_active (self s'))
  | _ => false
  end.

(** A stimulus that ends the loop: the [q] command or the interrupt key. *)
Definition quits (env : Env) (arrives : Stimulus) : bool :=
  match arrives with
  | Line text => Text_eqb (strip (lower env text)) (chars "q")
  | CtrlC => true
  end.

(** The actions through which [is_running] may be cleared. *)
Definition stops_running (env : Env) (a : Action) (s : State) : bool :=
  match a with
  | DoCleanup => true
  | DoCommand arrives => quits env arrives
  | DoRunInteractiveMode => existsb (quits env) (stdin (world s))
  | _ => false
  end.

(** The invariant of a constructed controller: photos go to [photos], both
    profiles are built from the two sizes, and the device holds one of them
    or nothing. *)
Definition well_formed (s : State) : Prop :=
  photos_dir (self s) = "photos" /\
  picam2 (self s) = Some tt /\
  preview_config (self s) = Some (preview_configuration (preview_size (self s))) /\
  still_config (self s) = Some (still_configuration (still_size (self s))) /\
  (applied s = None \/
   applied s = preview_config (self s) \/
   applied s = still_config (self s)).

Definition preserves (R : State -> State -> Prop) {A} (m : M A) : Prop :=
  forall s, R s (after m s).

Definition same_sizes (s s' : State) : Prop :=
  preview_size (self s') = preview_size (self s) /\
  still_size (self s') = still_size (self s).

Definition keeps_well_formed (s s' : State) : Prop :=
  well_formed s -> well_formed s' /\ same_sizes s s'.

Definition same_preview_active (s s' : State) : Prop :=
  preview_active (self s') = preview_active (self s).

Definition same_is_running (s s' : State) : Prop :=
  is_running (self s') = is_running (self s).

Definition stays_running (s s' : State) : Prop :=
  is_running (self s) = true -> is_running (self s') = true.

Definition same_stdin (s s' : State) : Prop :=
  stdin (world s') = stdin (world s).

Definition extends_trace (s s' : State) : Prop :=
  exists evs, trace (world s') = (trace (world s) ++ evs)%list.

(** ** Scenarios *)

Definition march : DateTime := mkDateTime 2024 3 5 7 8 9.

(** [str.lower] in the scenarios: the letters [A]-[Z] are lowered and every
    other character is kept, which is what Python does to text whose
    characters outside ASCII have no case, the no-break space among them. *)
Definition lower_caseless (s : Text) : Text := map lower_ascii s.

(** Every collaborator works. *)
Definition working : Env :=
  mkEnv (fun _ _ => false) (fun _ => true) (fun _ => march) lower_caseless.

(** The camera cannot be opened. *)
Definition no_camera : Env :=
  mkEnv (fun _ ev => match ev with EvPicamera2 => true | _ => false end)
        (fun _ => true) (fun _ => march) lower_caseless.

(** The GPIO service is unavailable. *)
Definition no_gpio : Env :=
  mkEnv (fun _ ev => is_gpio ev) (fun _ => true) (fun _ => march) lower_caseless.

(** Only the [k]-th call raises. *)
Definition fails_at (k : nat) : Env :=
  mkEnv (fun n _ => Nat.eqb n k) (fun _ => true) (fun _ => march) lower_caseless.

(** The preview window cannot be opened, now or later. *)
Definition no_preview_window : Env :=
  mkEnv (fun _ ev => match ev with EvStartPreview => true | _ => false end)
        (fun _ => true) (fun _ => march) lower_caseless.

Definition bare (typed : list Stimulus) : World := mkWorld [] None [] typed.

(** The controller [main] builds, when construction goes through. *)
Definition constructed (env : Env) : State :=
  snd (PiCameraController env 0 default_preview_size default_still_size (bare [])).

(** ** Further vocabulary *)

(** [ev] raises when it is issued after the calls [done] of the current
    method. *)
Definition raises (env : Env) (s : State) (done : list Event) (ev : Event) : bool :=
  fault env (List.length (trace (world s) ++ done)) ev.

(** A call that stops, reconfigures or restarts the device, or waits for it
    to settle. *)
Definition is_reconfigure (ev : Event) : bool :=
  match ev with
  | EvConfigure _ | EvStop | EvStart | EvStopPreview | EvStartPreview
  | EvSleep _ => true
  | _ => false
  end.

Definition is_preview_stop (ev : Event) : bool :=
  match ev with EvStopPreview | EvStop => true | _ => false end.

(** The button is live, or the preview is shown. *)
Definition armed (s : State) : bool :=
  is_running (self s) || preview_active (self s).

Definition configured_when_armed (s : State) : Prop :=
  armed s = true -> applied s <> None.

(** The values [datetime.now()] can hold, as far as the digits printed by
    [strftime] go. *)
Definition valid_datetime (t : DateTime) : Prop :=
  (year t < 100 * 100 /\ month t < 100 /\ day t < 100 /\
   hour t < 100 /\ minute t < 100 /\ second t < 100)%nat.

(** The calls of a successful capture, from the clock read to the size
    read. *)
Definition capture_calls (preview_on differs : bool) (path : string)
    (pc sc : Config) : list Event :=
  ([EvNow; EvCameraConfiguration] ++
   (if differs then switch_to_still preview_on sc else []) ++
   [EvCaptureFile path] ++
   (if differs && preview_on
    then [EvStopPreview; EvStop; EvConfigure pc; EvStartPreview; EvStart]
    else []) ++
   [EvGetsize path])%list.




(** ** The file name as the specification words it *)

(** [n] in decimal, filled with zeros on the left up to [width] digits. *)
Definition zero_filled (width n : nat) : string :=
  let digits := NilEmpty.string_of_uint (Nat.to_uint n) in
  concat "" (repeat "0" (width - String.length digits)) ++ digits.

(** [T] formatted as [YYYYMMDD_HHMMSS]. *)
Definition YYYYMMDD_HHMMSS (t : DateTime) : string :=
  zero_filled 4 (year t) ++ zero_filled 2 (month t) ++ zero_filled 2 (day t) ++
  "_" ++
  zero_filled 2 (hour t) ++ zero_filled 2 (minute t) ++ zero_filled 2 (second t).

(** [capture_file] leaves a file only while fewer than [k] calls have been
    made. *)
Definition writes_until (k : nat) : Env :=
  mkEnv (fun _ _ => false) (fun n => Nat.ltb n k) (fun _ => march) lower_caseless.

(** * Properties *)

(** ** Text *)

Lemma Text_eqb_eq a b : Text_eqb a b = true <-> a = b.
Proof.
  revert b. induction a as [| x a IH]; destruct b as [| y b]; cbn;
    try (split; [discriminate | discriminate || reflexivity]);
    try (split; [reflexivity | reflexivity]).
  rewrite andb_true_iff, N.eqb_eq, IH. split.
  - intros [-> ->]. reflexivity.
  - intro H. inversion H. auto.
Qed.

Lemma Text_eqb_refl a : Text_eqb a a = true.
Proof. apply Text_eqb_eq. reflexivity. Qed.

(** ** Relations kept by every step of a method

    A relation between the state before and the state after that is a
    preorder, and that the primitive steps keep, is kept by the methods
    built from them. *)

Section Preservation.

Variable R : State -> State -> Prop.
Hypothesis R_refl : forall s, R s s.
Hypothesis R_trans : forall a b c, R a b -> R b c -> R a c.

Lemma preserves_ret {A} (a : A) : preserves R (ret a).
Proof. intro s. apply R_refl. Qed.

Lemma preserves_raise {A} (e : Exn) : preserves R (@raise A e).
Proof. intro s. apply R_refl. Qed.

Lemma preserves_get_self : preserves R get_self.
Proof. intro s. apply R_refl. Qed.

Lemma preserves_path_exists p : preserves R (path_exists p).
Proof. intro s. apply R_refl. Qed.

Lemma preserves_bind {A B} (m : M A) (k : A -> M B) :
  preserves R m -> (forall a, preserves R (k a)) -> preserves R (bind m k).
Proof.
  intros Hm Hk s. unfold after, bind.
  specialize (Hm s). unfold after in Hm.
  destruct (m s) as [[a | e] s1]; cbn in *.
  - eapply R_trans; [exact Hm | apply Hk].
  - exact Hm.
Qed.

Lemma preserves_try_except_Exception {A} (body : M A) handler :
  preserves R body -> (forall what, preserves R (handler what)) ->
  preserves R (try_except_Exception body handler).
Proof.
  intros Hb Hh s. unfold after, try_except_Exception.
  specialize (Hb s). unfold after in Hb.
  destruct (body s) as [[a | [what | ]] s1]; cbn in *; auto.
  eapply R_trans; [exact Hb | apply Hh].
Qed.

Lemma preserves_try_except_KeyboardInterrupt {A} (body handler : M A) :
  preserves R body -> preserves R handler ->
  preserves R (try_except_KeyboardInterrupt body handler).
Proof.
  intros Hb Hh s. unfold after, try_except_KeyboardInterrupt.
  specialize (Hb s). unfold after in Hb.
  destruct (body s) as [[a | [what | ]] s1]; cbn in *; auto.
  eapply R_trans; [exact Hb | apply Hh].
Qed.

Lemma preserves_when b m : preserves R m -> preserves R (when b m).
Proof. intro Hm. destruct b; cbn; [exact Hm | apply preserves_ret]. Qed.

Lemma preserves_get_attr {A} (field : Self -> option A) :
  preserves R (get_attr field).
Proof.
  unfold get_attr. apply preserves_bind; [apply preserves_get_self |].
  intro o. destruct (field o); [apply preserves_ret | apply preserves_raise].
Qed.

Lemma preserves_main_size_of c : preserves R (main_size_of c).
Proof. destruct c; [apply preserves_ret | apply preserves_raise]. Qed.

(** The primitive steps: calls other than [configure], the two uses of
    [configure], and reading a line. *)
Hypothesis R_call :
  forall env ev, is_configure ev = false -> preserves R (call env ev).
Hypothesis R_configure_preview :
  forall env, preserves R (picam2_configure env preview_config).
Hypothesis R_configure_still :
  forall env, preserves R (picam2_configure env still_config).
Hypothesis R_input : forall arrives, preserves R (input arrives).
Hypothesis R_input_eof : preserves R input_eof.

Lemma preserves_picam2_call env ev :
  is_configure ev = false -> preserves R (picam2_call env ev).
Proof.
  intro H. unfold picam2_call. apply preserves_bind; [apply preserves_get_self |].
  intro o. destruct (picam2 o); [apply R_call; exact H | apply preserves_raise].
Qed.

Lemma preserves_now env : preserves R (now env).
Proof.
  intro s. unfold after, now.
  pose proof (R_call env EvNow eq_refl s) as H. unfold after in H.
  destruct (call env EvNow s) as [[u | e] s1]; exact H.
Qed.

Lemma preserves_camera_configuration env :
  preserves R (camera_configuration env).
Proof.
  unfold camera_configuration.
  apply preserves_bind; [apply preserves_picam2_call; reflexivity |].
  intros _ s. apply R_refl.
Qed.

Ltac keep :=
  repeat first
    [ assumption
    | apply preserves_ret | apply preserves_raise | apply preserves_get_self
    | apply preserves_path_exists | apply preserves_get_attr
    | apply preserves_main_size_of | apply preserves_now
    | apply preserves_camera_configuration
    | apply R_configure_preview | apply R_configure_still
    | apply preserves_picam2_call; reflexivity
    | apply R_call; reflexivity
    | apply preserves_when
    | apply preserves_try_except_Exception
    | apply preserves_bind
    | match goal with
      | |- forall _, _ => intro
      | |- preserves _ (if ?b then _ else _) => destruct b
      | |- preserves _ (match ?x with _ => _ end) => destruct x
      end ].

Lemma preserves_capture_photo env : preserves R (capture_photo env).
Proof. unfold capture_photo, capture_photo_body. keep. Qed.

Lemma preserves_start_preview env :
  preserves R (set_preview_active true) -> preserves R (set_is_running true) ->
  preserves R (start_preview env).
Proof. intros. unfold start_preview. keep. Qed.

Lemma preserves_stop_preview env :
  preserves R (set_preview_active false) -> preserves R (stop_preview env).
Proof. intros. unfold stop_preview. keep. Qed.

Lemma preserves__button_pressed env channel :
  preserves R (_button_pressed env channel).
Proof. unfold _button_pressed. keep. Qed.

Lemma preserves_get_camera_info env : preserves R (get_camera_info env).
Proof. unfold get_camera_info. keep. Qed.

Lemma preserves_cleanup env :
  preserves R (set_preview_active false) -> preserves R (set_is_running false) ->
  preserves R (cleanup env).
Proof.
  intros. unfold cleanup. keep.
Qed.

(** One turn of the loop; [is_running] is cleared only on a stimulus
    that quits. *)
Lemma preserves_loop_body env arrives :
  (quits env arrives = true -> preserves R (set_is_running false)) ->
  preserves R (loop_body env arrives).
Proof.
  intros Hq s. unfold after, loop_body, bind at 1.
  pose proof (R_input arrives s) as Hin. unfold after in Hin.
  destruct arrives as [text | ]; cbn [input fst snd] in *.
  - set (s1 := set_world _ s) in *.
    eapply R_trans; [exact Hin |].
    change (R s1 (after
      (if Text_eqb (strip (lower env text)) (chars "c") then
         filename <- capture_photo env ;;
         match filename with
         | Some f => apply_post_processing f ;; ret Continue
         | None => ret Continue
         end
       else if Text_eqb (strip (lower env text)) (chars "s") then _show_status ;; ret Continue
       else if Text_eqb (strip (lower env text)) (chars "q") then set_is_running false ;; ret Break
       else ret Continue) s1)).
    generalize s1. fold (preserves R
      (if Text_eqb (strip (lower env text)) (chars "c") then
         filename <- capture_photo env ;;
         match filename with
         | Some f => apply_post_processing f ;; ret Continue
         | None => ret Continue
         end
       else if Text_eqb (strip (lower env text)) (chars "s") then _show_status ;; ret Continue
       else if Text_eqb (strip (lower env text)) (chars "q") then set_is_running false ;; ret Break
       else ret Continue)).
    destruct (Text_eqb (strip (lower env text)) (chars "c")).
    + unfold apply_post_processing. keep.
    + destruct (Text_eqb (strip (lower env text)) (chars "s")).
      * unfold _show_status. keep.
      * destruct (Text_eqb (strip (lower env text)) (chars "q")) eqn:Hqq.
        -- keep. apply Hq. exact Hqq.
        -- keep.
  - exact Hin.
Qed.

Lemma preserves_while_is_running env pending :
  (existsb (quits env) pending = true -> preserves R (set_is_running false)) ->
  preserves R (while_is_running env pending).
Proof.
  induction pending as [| arrives rest IH]; intros Hq s; unfold after; cbn.
  - destruct (is_running (self s)); [apply R_input_eof | apply R_refl].
  - destruct (is_running (self s)); [| apply R_refl].
    assert (Hb : preserves R (loop_body env arrives)).
    { apply preserves_loop_body. intro H. apply Hq. cbn. rewrite H. reflexivity. }
    specialize (Hb s). unfold after in Hb.
    destruct (loop_body env arrives s) as [[[ | ] | e] s1]; cbn in *; auto.
    eapply R_trans; [exact Hb |]. apply IH.
    intro H. apply Hq. cbn. rewrite H. apply orb_true_r.
Qed.

Lemma preserves_run_interactive_mode env :
  preserves R (set_preview_active true) -> preserves R (set_is_running true) ->
  preserves R (set_is_running false) ->
  preserves R (run_interactive_mode env).
Proof.
  intros. unfold run_interactive_mode.
  apply preserves_bind; [apply preserves_get_camera_info |]. intros _.
  apply preserves_bind; [apply preserves_start_preview; assumption |]. intros _.
  apply preserves_try_except_KeyboardInterrupt; [| assumption].
  intro s. apply preserves_while_is_running. intros _. assumption.
Qed.

End Preservation.

(** ** Case analysis over the runs of a method *)

Ltac unfold_methods :=
  unfold result, after, PiCameraController, __init__, cleanup, _button_pressed,
    capture_photo, capture_photo_body, start_preview, stop_preview,
    get_camera_info, _create_photos_dir, _setup_gpio, _initialize_camera,
    camera_configuration, main_size_of, picam2_configure, picam2_call,
    get_attr, now, call, path_exists, input, input_eof,
    try_except_Exception, when, bind, ret, raise, get_self,
    set_is_running, set_preview_active, set_picam2, set_preview_config,
    set_still_config, set_world, log in *.

Ltac simpl_state :=
  cbn [fst snd self world trace camera_config paths stdin picam2 is_running
       preview_active preview_config still_config photos_dir button_pin
       preview_size still_size effect negb andb applied file_exists] in *.

Ltac split_cases :=
  repeat (simpl_state;
          match goal with
          | |- context [match ?x with _ => _ end] =>
              lazymatch x with
              | context [match _ with _ => _ end] => fail
              | _ => destruct x eqn:?
              end
          end).

(** A primitive step, by running it. *)
Ltac run_primitive :=
  intros;
  match goal with |- preserves _ _ => intros [o w] end;
  unfold_methods; split_cases; simpl_state.

(** ** The flags *)

Lemma same_preview_active_refl s : same_preview_active s s.
Proof. reflexivity. Qed.

Lemma same_preview_active_trans a b c :
  same_preview_active a b -> same_preview_active b c -> same_preview_active a c.
Proof. unfold same_preview_active. congruence. Qed.

Lemma call_same_preview_active env ev :
  preserves same_preview_active (call env ev).
Proof. run_primitive; reflexivity. Qed.

Lemma configure_same_preview_active env field :
  preserves same_preview_active (picam2_configure env field).
Proof. run_primitive; reflexivity. Qed.

Lemma input_same_preview_active arrives :
  preserves same_preview_active (input arrives).
Proof. run_primitive; reflexivity. Qed.

Lemma same_is_running_refl s : same_is_running s s.
Proof. reflexivity. Qed.

Lemma same_is_running_trans a b c :
  same_is_running a b -> same_is_running b c -> same_is_running a c.
Proof. unfold same_is_running. congruence. Qed.

Lemma call_same_is_running env ev : preserves same_is_running (call env ev).
Proof. run_primitive; reflexivity. Qed.

Lemma configure_same_is_running env field :
  preserves same_is_running (picam2_configure env field).
Proof. run_primitive; reflexivity. Qed.

Lemma set_preview_active_same_is_running b :
  preserves same_is_running (set_preview_active b).
Proof. intros s. reflexivity. Qed.

Lemma stop_preview_same_is_running env :
  preserves same_is_running (stop_preview env).
Proof.
  apply preserves_stop_preview;
    eauto using same_is_running_refl, same_is_running_trans, call_same_is_running,
      configure_same_is_running, set_preview_active_same_is_running.
Qed.

Lemma capture_photo_same_is_running env :
  preserves same_is_running (capture_photo env).
Proof.
  apply preserves_capture_photo;
    eauto using same_is_running_refl, same_is_running_trans, call_same_is_running,
      configure_same_is_running.
Qed.

Lemma stays_running_refl s : stays_running s s.
Proof. intro H. exact H. Qed.

Lemma stays_running_trans a b c :
  stays_running a b -> stays_running b c -> stays_running a c.
Proof. unfold stays_running. auto. Qed.

Lemma same_is_running_stays m :
  (forall s : State, same_is_running s (m s)) -> forall s, stays_running s (m s).
Proof. intros H s Hr. rewrite (H s). exact Hr. Qed.

Lemma call_stays_running env ev : preserves stays_running (call env ev).
Proof. intros s Hr. rewrite (call_same_is_running env ev s). exact Hr. Qed.

Lemma configure_stays_running env field :
  preserves stays_running (picam2_configure env field).
Proof. intros s Hr. rewrite (configure_same_is_running env field s). exact Hr. Qed.

Lemma input_stays_running arrives : preserves stays_running (input arrives).
Proof. run_primitive; intro H; exact H. Qed.

Lemma input_eof_stays_running : preserves stays_running input_eof.
Proof. intros s H. exact H. Qed.

Lemma set_preview_active_stays_running b :
  preserves stays_running (set_preview_active b).
Proof. intros s H. exact H. Qed.

Lemma set_is_running_true_stays_running :
  preserves stays_running (set_is_running true).
Proof. intros s H. reflexivity. Qed.

Create HintDb running.

#[local] Hint Resolve stays_running_refl stays_running_trans call_stays_running
  configure_stays_running input_stays_running input_eof_stays_running
  set_preview_active_stays_running set_is_running_true_stays_running : running.

(** [capture_photo] and the other guarded methods catch every [Exception],
    and nothing inside them reads the keyboard. *)
Lemma capture_photo_returns env s :
  exists r, result (capture_photo env) s = Return r.
Proof.
  destruct s as [o w]. unfold_methods. split_cases; cbn; eauto.
Qed.

Lemma start_preview_returns env s : result (start_preview env) s = Return tt.
Proof.
  destruct s as [o w]. unfold_methods. split_cases; cbn; auto.
Qed.


Lemma get_camera_info_returns env s :
  exists r, result (get_camera_info env) s = Return r.
Proof.
  destruct s as [o w]. unfold_methods. split_cases; cbn; eauto.
Qed.

Lemma cleanup_returns env s : result (cleanup env) s = Return tt.
Proof.
  destruct s as [o w]. unfold_methods. split_cases; cbn; auto.
Qed.

Lemma _setup_gpio_returns env s : result (_setup_gpio env) s = Return tt.
Proof.
  destruct s as [o w]. unfold_methods. split_cases; cbn; auto.
Qed.



(** ** The trace only grows *)

Lemma extends_trace_refl s : extends_trace s s.
Proof. exists []. rewrite app_nil_r. reflexivity. Qed.

Lemma extends_trace_trans a b c :
  extends_trace a b -> extends_trace b c -> extends_trace a c.
Proof.
  intros [l1 H1] [l2 H2]. exists (l1 ++ l2)%list.
  rewrite H2, H1, app_assoc. reflexivity.
Qed.

Lemma effect_trace env n ev w : trace (effect env n ev w) = trace w.
Proof.
  destruct ev; cbn; try reflexivity. destruct (produces env n); reflexivity.
Qed.

Lemma call_extends_trace env ev : preserves extends_trace (call env ev).
Proof.
  run_primitive; exists [ev]; cbn; rewrite ?effect_trace; reflexivity.
Qed.

Lemma configure_extends_trace env field :
  preserves extends_trace (picam2_configure env field).
Proof.
  run_primitive;
    first [ eexists [_]; reflexivity | apply extends_trace_refl ].
Qed.

Lemma input_extends_trace arrives : preserves extends_trace (input arrives).
Proof. run_primitive; exists [EvInput]; reflexivity. Qed.

Lemma input_eof_extends_trace : preserves extends_trace input_eof.
Proof. intros [o w]. exists [EvInput]. reflexivity. Qed.

Lemma setter_extends_trace (m : M unit) :
  (forall s, world (after m s) = world s) -> preserves extends_trace m.
Proof. intros H s. unfold extends_trace. rewrite H. apply extends_trace_refl. Qed.

Create HintDb growing.

#[local] Hint Resolve extends_trace_refl extends_trace_trans call_extends_trace
  configure_extends_trace input_extends_trace input_eof_extends_trace : growing.

Lemma perform_extends_trace env a s : extends_trace s (perform env a s).
Proof.
  assert (Hs : forall b, preserves extends_trace (set_preview_active b))
    by (intro; apply setter_extends_trace; reflexivity).
  assert (Hr : forall b, preserves extends_trace (set_is_running b))
    by (intro; apply setter_extends_trace; reflexivity).
  destruct a; cbn [perform].
  - apply preserves_start_preview; eauto with growing.
  - apply preserves_stop_preview; eauto with growing.
  - apply preserves_capture_photo; eauto with growing.
  - apply preserves__button_pressed; eauto with growing.
  - apply preserves_get_camera_info; eauto with growing.
  - apply extends_trace_refl.
  - apply preserves_loop_body; eauto with growing.
  - apply preserves_run_interactive_mode; eauto with growing.
  - apply preserves_cleanup; eauto with growing.
Qed.

Lemma new_events_app w w' evs :
  trace w' = (trace w ++ evs)%list -> new_events w w' = evs.
Proof.
  intro H. unfold new_events. rewrite H.
  rewrite skipn_app, skipn_all, Nat.sub_diag. reflexivity.
Qed.

(** ** The invariant of a constructed controller *)

Lemma keeps_well_formed_refl s : keeps_well_formed s s.
Proof. intro H. split; [exact H | split; reflexivity]. Qed.

Lemma keeps_well_formed_trans a b c :
  keeps_well_formed a b -> keeps_well_formed b c -> keeps_well_formed a c.
Proof.
  unfold keeps_well_formed, same_sizes. intros H1 H2 Ha.
  destruct (H1 Ha) as [Hb [E1 E2]]. destruct (H2 Hb) as [Hc [E3 E4]].
  split; [exact Hc | split; congruence].
Qed.

(** A step that leaves the attributes alone, and the device with the
    configuration it had or with none. *)
Lemma keeps_well_formed_frame s s' :
  self s' = self s ->
  applied s' = applied s \/ applied s' = None ->
  keeps_well_formed s s'.
Proof.
  unfold keeps_well_formed, well_formed, same_sizes.
  intros Hs Ha (H0 & H1 & H2 & H3 & H4). rewrite Hs.
  repeat split; auto.
  destruct Ha as [Ha | Ha]; rewrite Ha; auto.
Qed.

Lemma effect_camera_config env n ev w :
  is_configure ev = false ->
  camera_config (effect env n ev w) = camera_config w \/
  camera_config (effect env n ev w) = None.
Proof.
  destruct ev; cbn; intro H; try discriminate; auto.
  destruct (produces env n); auto.
Qed.

Lemma call_keeps_well_formed env ev :
  is_configure ev = false -> preserves keeps_well_formed (call env ev).
Proof.
  intros H [o w]. unfold after, call.
  destruct (fault env _ ev); cbn [snd];
    apply keeps_well_formed_frame; cbn; auto.
  apply effect_camera_config. exact H.
Qed.

Lemma configure_preview_keeps_well_formed env :
  preserves keeps_well_formed (picam2_configure env preview_config).
Proof.
  run_primitive; try apply keeps_well_formed_refl;
    unfold keeps_well_formed, well_formed, same_sizes; simpl_state;
    intros (H0 & H1 & H2 & H3 & H4); repeat split; auto.
Qed.

Lemma configure_still_keeps_well_formed env :
  preserves keeps_well_formed (picam2_configure env still_config).
Proof.
  run_primitive; try apply keeps_well_formed_refl;
    unfold keeps_well_formed, well_formed, same_sizes; simpl_state;
    intros (H0 & H1 & H2 & H3 & H4); repeat split; auto.
Qed.

Lemma input_keeps_well_formed arrives :
  preserves keeps_well_formed (input arrives).
Proof.
  intros [o w]. unfold after, input.
  destruct arrives; cbn [snd]; apply keeps_well_formed_frame; cbn; auto.
Qed.

Lemma input_eof_keeps_well_formed : preserves keeps_well_formed input_eof.
Proof. intros [o w]. apply keeps_well_formed_frame; cbn; auto. Qed.

Lemma set_preview_active_keeps_well_formed b :
  preserves keeps_well_formed (set_preview_active b).
Proof.
  intros [o w]. unfold keeps_well_formed, well_formed, same_sizes. cbn. tauto.
Qed.

Lemma set_is_running_keeps_well_formed b :
  preserves keeps_well_formed (set_is_running b).
Proof.
  intros [o w]. unfold keeps_well_formed, well_formed, same_sizes. cbn. tauto.
Qed.

Create HintDb formed.

#[local] Hint Resolve keeps_well_formed_refl keeps_well_formed_trans
  call_keeps_well_formed configure_preview_keeps_well_formed
  configure_still_keeps_well_formed input_keeps_well_formed
  input_eof_keeps_well_formed set_preview_active_keeps_well_formed
  set_is_running_keeps_well_formed : formed.

Lemma perform_keeps_well_formed env a s : keeps_well_formed s (perform env a s).
Proof.
  destruct a; cbn [perform].
  - apply preserves_start_preview; eauto with formed.
  - apply preserves_stop_preview; eauto with formed.
  - apply preserves_capture_photo; eauto with formed.
  - apply preserves__button_pressed; eauto with formed.
  - apply preserves_get_camera_info; eauto with formed.
  - apply keeps_well_formed_refl.
  - apply preserves_loop_body; eauto with formed.
  - apply preserves_run_interactive_mode; eauto with formed.
  - apply preserves_cleanup; eauto with formed.
Qed.

Lemma session_keeps_well_formed env acts s :
  keeps_well_formed s (session env acts s).
Proof.
  revert s. induction acts as [| a acts IH]; intro s; cbn.
  - apply keeps_well_formed_refl.
  - eapply keeps_well_formed_trans; [apply perform_keeps_well_formed | apply IH].
Qed.

(** The constructor establishes the invariant. *)
Lemma PiCameraController_well_formed env pin ps ss w s :
  PiCameraController env pin ps ss w = (Return tt, s) ->
  well_formed s /\ preview_size (self s) = ps /\ still_size (self s) = ss.
Proof.
  unfold well_formed, blank. unfold_methods. split_cases; cbn;
    intro H; inversion H; subst; cbn; try discriminate;
    repeat split; auto.
Qed.

(** ** The resolution the device is left with *)

(** C4.  Whatever is done to a constructed controller, and however the
    collaborators fail, the configuration the device holds when
    [capture_photo] returns has the preview size or the still size as its
    main resolution. *)
Theorem capture_photo_resolution env pin ps ss w s0 acts c :
  PiCameraController env pin ps ss w = (Return tt, s0) ->
  applied (after (capture_photo env) (session env acts s0)) = Some c ->
  main_size c = ps \/ main_size c = ss.
Proof.
  intros Hnew Hc.
  destruct (PiCameraController_well_formed _ _ _ _ _ _ Hnew) as (Hwf & Hp & Hs).
  destruct (session_keeps_well_formed env acts s0 Hwf) as (Hwf1 & Hp1 & Hs1).
  assert (Hk : keeps_well_formed (session env acts s0)
                 (after (capture_photo env) (session env acts s0)))
    by (apply preserves_capture_photo; eauto with formed).
  destruct (Hk Hwf1) as ((_ & _ & Hpc & Hsc & Happ) & Hp2 & Hs2).
  rewrite Hc in Happ.
  destruct Happ as [H | [H | H]]; [discriminate | |].
  - left. rewrite Hpc in H. inversion H. cbn. congruence.
  - right. rewrite Hsc in H. inversion H. cbn. congruence.
Qed.

Lemma capture_photo_resolution_witness :
  PiCameraController working 0 default_preview_size default_still_size (bare [])
    = (Return tt, constructed working) /\
  applied (after (capture_photo working)
             (session working [DoStartPreview] (constructed working)))
    = Some (preview_configuration default_preview_size) /\
  (main_size (preview_configuration default_preview_size) = default_preview_size \/
   main_size (preview_configuration default_preview_size) = default_still_size).
Proof.
  split; [vm_compute; reflexivity |]. split; [vm_compute; reflexivity |].
  apply (capture_photo_resolution working 0 default_preview_size default_still_size
           (bare []) (constructed working) [DoStartPreview]);
    vm_compute; reflexivity.
Defined.

(** ** The preview flag across a capture *)

(** C5.  [capture_photo] never assigns [preview_active]: on every path,
    a photo returned, a missing file or a device error, the flag is what it
    was before the call. *)
Theorem capture_photo_keeps_preview_active env s :
  preview_active (self (after (capture_photo env) s)) = preview_active (self s).
Proof.
  apply (preserves_capture_photo same_preview_active);
    eauto using same_preview_active_refl, same_preview_active_trans,
      call_same_preview_active, configure_same_preview_active.
Qed.

Example capture_photo_in_preview_mode :
  let s := session working [DoStartPreview] (constructed working) in
  preview_active (self s) = true /\
  result (capture_photo working) s = Return (Some "photos/photo_20240305_070809.jpg") /\
  preview_active (self (after (capture_photo working) s)) = true.
Proof. vm_compute. repeat split. Qed.

(** ** When [is_running] is cleared *)

Lemma same_stdin_refl s : same_stdin s s.
Proof. reflexivity. Qed.

Lemma same_stdin_trans a b c : same_stdin a b -> same_stdin b c -> same_stdin a c.
Proof. unfold same_stdin. congruence. Qed.

Lemma effect_stdin env n ev w : stdin (effect env n ev w) = stdin w.
Proof.
  destruct ev; cbn; try reflexivity. destruct (produces env n); reflexivity.
Qed.

Lemma call_same_stdin env ev : preserves same_stdin (call env ev).
Proof.
  run_primitive; unfold same_stdin; cbn; rewrite ?effect_stdin; reflexivity.
Qed.

Lemma configure_same_stdin env field :
  preserves same_stdin (picam2_configure env field).
Proof. run_primitive; reflexivity. Qed.

Lemma loop_body_not_interrupted env arrives s :
  quits env arrives = false ->
  result (loop_body env arrives) s <> Raise KeyboardInterrupt.
Proof.
  destruct arrives as [text | ]; [intros _ | discriminate].
  unfold result, loop_body, bind at 1. cbn [input].
  set (s1 := set_world _ s).
  destruct (Text_eqb (strip (lower env text)) (chars "c")).
  - unfold bind. destruct (capture_photo_returns env s1) as [r Hr].
    unfold result in Hr. destruct (capture_photo env s1) as [r' s2].
    cbn in Hr. subst r'. destruct r; cbn; discriminate.
  - destruct (Text_eqb (strip (lower env text)) (chars "s")); [cbn; discriminate |].
    destruct (Text_eqb (strip (lower env text)) (chars "q")); cbn; discriminate.
Qed.

Lemma while_is_running_not_interrupted env pending s :
  existsb (quits env) pending = false ->
  result (while_is_running env pending) s <> Raise KeyboardInterrupt.
Proof.
  revert s. induction pending as [| arrives rest IH]; intros s Hq;
    unfold result; cbn.
  - destruct (is_running (self s)); cbn; discriminate.
  - cbn in Hq. apply orb_false_iff in Hq. destruct Hq as [Ha Hrest].
    destruct (is_running (self s)); [| cbn; discriminate].
    pose proof (loop_body_not_interrupted env arrives s Ha) as Hb.
    unfold result in Hb.
    destruct (loop_body env arrives s) as [[[ | ] | e] s1]; cbn in *.
    + apply IH. exact Hrest.
    + discriminate.
    + intro H. apply Hb. inversion H. reflexivity.
Qed.

Lemma run_interactive_mode_stays_running env s :
  existsb (quits env) (stdin (world s)) = false ->
  stays_running s (after (run_interactive_mode env) s).
Proof.
  intros Hq Hr. unfold after, run_interactive_mode, bind.
  destruct (get_camera_info_returns env s) as [r1 H1].
  assert (K1 : stays_running s (after (get_camera_info env) s))
    by (apply preserves_get_camera_info; eauto with running).
  assert (I1 : same_stdin s (after (get_camera_info env) s))
    by (apply preserves_get_camera_info;
        eauto using same_stdin_refl, same_stdin_trans, call_same_stdin).
  unfold result, after in *.
  destruct (get_camera_info env s) as [o1 s1]. cbn in *. subst o1.
  pose proof (start_preview_returns env s1) as H2.
  assert (K2 : stays_running s1 (after (start_preview env) s1))
    by (apply preserves_start_preview; eauto with running).
  assert (I2 : same_stdin s1 (after (start_preview env) s1)).
  { apply preserves_start_preview;
      eauto using same_stdin_refl, same_stdin_trans, call_same_stdin,
        configure_same_stdin; intro; reflexivity. }
  unfold result, after in *.
  destruct (start_preview env s1) as [o2 s2]. cbn in *. subst o2.
  unfold same_stdin in *. rewrite <- I1, <- I2 in Hq.
  pose proof (while_is_running_not_interrupted env _ s2 Hq) as Hw.
  assert (K3 : stays_running s2 (after (while_is_running env (stdin (world s2))) s2)).
  { apply preserves_while_is_running; eauto with running.
    rewrite Hq. discriminate. }
  unfold try_except_KeyboardInterrupt, result, after in *.
  destruct (while_is_running env (stdin (world s2)) s2) as [[u | [what | ]] s3];
    cbn in *; auto; try congruence.
Qed.

Lemma perform_stays_running env a s :
  stops_running env a s = false -> stays_running s (perform env a s).
Proof.
  destruct a; cbn [perform stops_running]; intro Hq.
  - apply preserves_start_preview; eauto with running.
  - apply preserves_stop_preview; eauto with running.
  - apply preserves_capture_photo; eauto with running.
  - apply preserves__button_pressed; eauto with running.
  - apply preserves_get_camera_info; eauto with running.
  - apply stays_running_refl.
  - apply preserves_loop_body; eauto with running.
    rewrite Hq. discriminate.
  - apply run_interactive_mode_stays_running. exact Hq.
  - discriminate.
Qed.

(** The [q] command is recognised after [str.strip] has removed every
    Unicode blank: a line made of a no-break space and [q] quits. *)
Example quit_after_no_break_space :
  let s := session working [DoStartPreview] (constructed working) in
  quits working (Line [160; 113]%N) = true /\
  is_running (self s) = true /\
  is_running (self (perform working (DoCommand (Line [160; 113]%N)) s)) = false.
Proof. vm_compute. repeat split. Qed.

(** C10.  [stop_preview] leaves [is_running] as it is, so a button press
    that comes after it, in a running session, still runs [capture_photo];
    and a running session stays running under every action except the [q]
    command (a line that is [q] once lowered and stripped of blanks, the
    Unicode ones included), the interrupt key and [cleanup]. *)
Theorem is_running_cleared_only_by_quit env s a channel :
  is_running (self s) = true ->
  stops_running env a s = false ->
  (forall s0, is_running (self (after (stop_preview env) s0)) = is_running (self s0)) /\
  _button_pressed env channel (after (stop_preview env) s)
    = (capture_photo env ;; ret tt) (after (stop_preview env) s) /\
  is_running (self (perform env a s)) = true.
Proof.
  intros Hr Hq. split; [| split].
  - intro s0. apply stop_preview_same_is_running.
  - unfold _button_pressed, bind at 1, get_self.
    rewrite (stop_preview_same_is_running env s), Hr. reflexivity.
  - apply (perform_stays_running env a s Hq Hr).
Qed.

Lemma is_running_cleared_only_by_quit_witness :
  let s := session working [DoStartPreview] (constructed working) in
  is_running (self s) = true /\
  stops_running working DoCapturePhoto s = false /\
  _button_pressed working 0 (after (stop_preview working) s)
    = (capture_photo working ;; ret tt) (after (stop_preview working) s) /\
  is_running (self (perform working DoCapturePhoto s)) = true.
Proof.
  intro s. split; [vm_compute; reflexivity |]. split; [vm_compute; reflexivity |].
  apply (is_running_cleared_only_by_quit working s DoCapturePhoto 0);
    vm_compute; reflexivity.
Defined.

(** ** Runs of [capture_photo] *)

Ltac normalize_trace :=
  unfold new_events; simpl_state;
  repeat rewrite <- app_assoc; cbn [app];
  rewrite ?skipn_app, ?skipn_all, ?Nat.sub_diag; cbn [skipn app].

(** C2, as the code has it.  After a successful [capture_photo] the device
    holds: the configuration it had, when that already had the still
    resolution; the preview configuration, when preview was on; the still
    configuration, when preview was off and the resolutions differed. *)
Theorem capture_photo_configuration_after env s path c sc :
  result (capture_photo env) s = Return (Some path) ->
  applied s = Some c ->
  still_config (self s) = Some sc ->
  applied (after (capture_photo env) s) =
    if Size_eqb (main_size c) (main_size sc) then Some c
    else if preview_active (self s) then preview_config (self s)
    else Some sc.
Proof.
  destruct s as [[pin ps ss dir cam run act pc stc] [tr cc pa si]].
  cbn [applied self world camera_config still_config preview_active preview_config].
  intros H Hc Hsc. subst cc stc. revert H.
  unfold_methods.
  split_cases; simpl_state; intro H; try discriminate; try reflexivity;
    try congruence.
Qed.

Lemma capture_photo_configuration_after_witness :
  let s := session working [DoStartPreview] (constructed working) in
  let path := "photos/photo_20240305_070809.jpg" in
  let c := preview_configuration default_preview_size in
  let sc := still_configuration default_still_size in
  result (capture_photo working) s = Return (Some path) /\
  applied s = Some c /\
  still_config (self s) = Some sc /\
  applied (after (capture_photo working) s) =
    (if Size_eqb (main_size c) (main_size sc) then Some c
     else if preview_active (self s) then preview_config (self s)
     else Some sc).
Proof.
  intros s path c sc.
  split; [vm_compute; reflexivity |]. split; [vm_compute; reflexivity |].
  split; [vm_compute; reflexivity |].
  apply (capture_photo_configuration_after working s path c sc);
    vm_compute; reflexivity.
Defined.

(** C2, as stated, fails from the preview configuration with preview off:
    the capture succeeds and the device is left in the still configuration. *)
Lemma capture_photo_preview_off_not_restored :
  let s := session working [DoStartPreview; DoStopPreview] (constructed working) in
  applied s = Some (preview_configuration default_preview_size) /\
  preview_active (self s) = false /\
  result (capture_photo working) s
    = Return (Some "photos/photo_20240305_070809.jpg") /\
  applied (after (capture_photo working) s)
    = Some (still_configuration default_still_size) /\
  applied (after (capture_photo working) s) <> applied s.
Proof.
  vm_compute. repeat split. discriminate.
Qed.

(** C7.  From a configuration whose resolution differs from the still
    one, [capture_photo] reads the clock and the configuration and then
    performs exactly the switch, in order: stop preview if it was on, stop,
    configure the still profile, start, start preview if it had been on,
    sleep one second; only then does it call [capture_file], on the photo's
    path.  It departs from this sequence in one way only: by stopping at the
    first of these calls that raises. *)
Theorem capture_photo_switch_sequence env s c sc :
  picam2 (self s) = Some tt ->
  applied s = Some c ->
  still_config (self s) = Some sc ->
  Size_eqb (main_size c) (main_size sc) = false ->
  (exists rest,
     new_events (world s) (world (after (capture_photo env) s))
       = ([EvNow; EvCameraConfiguration] ++
          switch_to_still (preview_active (self s)) sc ++
          EvCaptureFile (filename_at env s) :: rest)%list) \/
  (exists done ev rest,
     ([EvNow; EvCameraConfiguration] ++
      switch_to_still (preview_active (self s)) sc ++
      [EvCaptureFile (filename_at env s)])%list = (done ++ ev :: rest)%list /\
     new_events (world s) (world (after (capture_photo env) s))
       = (done ++ [ev])%list /\
     raises env s done ev = true).
Proof.
  destruct s as [[pin ps ss dir cam run act pc stc] [tr cc pa si]].
  simpl_state. intros Hcam Hc Hsc Hne. subst cam cc stc. revert Hne.
  unfold filename_at, switch_to_still, raises. simpl_state.
  unfold_methods.
  split_cases; simpl_state; intro Hne; try (rewrite Hne in *; discriminate);
    normalize_trace;
    first
      [ left; eexists; reflexivity
      | right;
        match goal with
        | |- exists done ev rest, _ /\ ?l = _ /\ _ =>
            exists (removelast l), (last l EvInput)
        end;
        cbn [removelast last];
        eexists;
        (split; [reflexivity |]); (split; [reflexivity |]);
        repeat rewrite <- app_assoc in *; cbn [app] in *;
        rewrite ?app_nil_r in *; assumption ].
Qed.

Lemma capture_photo_switch_sequence_witness :
  let s := session working [DoStartPreview; DoStopPreview] (constructed working) in
  let c := preview_configuration default_preview_size in
  let sc := still_configuration default_still_size in
  picam2 (self s) = Some tt /\
  applied s = Some c /\
  still_config (self s) = Some sc /\
  Size_eqb (main_size c) (main_size sc) = false /\
  new_events (world s) (world (after (capture_photo working) s))
    = [EvNow; EvCameraConfiguration; EvStop; EvConfigure sc; EvStart; EvSleep 1;
       EvCaptureFile "photos/photo_20240305_070809.jpg";
       EvGetsize "photos/photo_20240305_070809.jpg"].
Proof.
  intros s c sc.
  split; [vm_compute; reflexivity |]. split; [vm_compute; reflexivity |].
  split; [vm_compute; reflexivity |]. split; [vm_compute; reflexivity |].
  destruct (capture_photo_switch_sequence working s c sc)
    as [[rest E] | (done & ev & rest & _ & _ & F)];
    [vm_compute; reflexivity .. | |].
  - vm_compute. reflexivity.
  - discriminate F.
Defined.

(** With the preview on, the switch is the longer one: the preview is
    stopped before the device and started again after it. *)
Example capture_photo_switch_from_preview :
  let s := session working [DoStartPreview] (constructed working) in
  let sc := still_configuration default_still_size in
  new_events (world s) (world (after (capture_photo working) s))
    = ([EvNow; EvCameraConfiguration; EvStopPreview; EvStop; EvConfigure sc;
        EvStart; EvStartPreview; EvSleep 1;
        EvCaptureFile "photos/photo_20240305_070809.jpg";
        EvStopPreview; EvStop;
        EvConfigure (preview_configuration default_preview_size);
        EvStartPreview; EvStart;
        EvGetsize "photos/photo_20240305_070809.jpg"])%list.
Proof. vm_compute. reflexivity. Qed.

(** A failure inside the switch ends the call there: when [stop] raises,
    nothing of the rest is attempted and no file is asked for. *)
Example capture_photo_switch_interrupted :
  let env := fails_at 13 in
  let s := session env [DoStartPreview] (constructed env) in
  new_events (world s) (world (after (capture_photo env) s))
    = [EvNow; EvCameraConfiguration; EvStopPreview; EvStop] /\
  result (capture_photo env) s = Return None.
Proof. vm_compute. repeat split. Qed.

(** A capture that succeeds from a different resolution has gone through
    the whole switch. *)
Lemma capture_photo_success_switches env s c sc path :
  applied s = Some c ->
  still_config (self s) = Some sc ->
  Size_eqb (main_size c) (main_size sc) = false ->
  result (capture_photo env) s = Return (Some path) ->
  before_capture (new_events (world s) (world (after (capture_photo env) s)))
    = Some ([EvNow; EvCameraConfiguration] ++
            switch_to_still (preview_active (self s)) sc)%list.
Proof.
  destruct s as [[pin ps ss dir cam run act pc stc] [tr cc pa si]].
  cbn [applied self world camera_config still_config preview_active preview_config].
  intros Hc Hsc Hne. subst cc stc. revert Hne.
  unfold_methods.
  split_cases; simpl_state; intro Hne; try congruence;
    try (rewrite Hne in *; discriminate);
    intro H; try discriminate; normalize_trace; reflexivity.
Qed.

(** ** The photo file *)

Lemma strftime_Ymd_HMS_length t : String.length (strftime_Ymd_HMS t) = 15%nat.
Proof. reflexivity. Qed.

Example photo_path_march :
  photo_path "photos" march = "photos/photo_20240305_070809.jpg".
Proof. reflexivity. Qed.


(** *** The file name, digit by digit *)




Example YYYYMMDD_HHMMSS_march : YYYYMMDD_HHMMSS march = "20240305_070809".
Proof. vm_compute. reflexivity. Qed.




(** C8, as stated, fails when a file of the same second is already there
    and [capture_file] returns without writing: the call succeeds, returns
    the path, and has written no file.  Here a first capture wrote the file
    and a second one, in the same second, goes through a [capture_file]
    that leaves nothing. *)
Lemma capture_photo_success_without_writing :
  let env := writes_until 20 in
  let s := session env [DoStartPreview; DoCapturePhoto] (constructed env) in
  let path := "photos/photo_20240305_070809.jpg" in
  file_exists path s = true /\
  result (capture_photo env) s = Return (Some path) /\
  produces env 33 = false /\
  nth_error (trace (world (after (capture_photo env) s))) 33
    = Some (EvCaptureFile path) /\
  paths (world (after (capture_photo env) s)) = paths (world s).
Proof. vm_compute. repeat split. Qed.

(** ** What [capture_photo] returns *)

(** C9, as stated, fails when the file is written and a call of the switch
    back then raises: the file is there, and the result is [None].  Here the
    call that raises is the [stop_preview] after [capture_file]. *)
Lemma capture_photo_file_written_but_none :
  let env := fails_at 19 in
  let s := session env [DoStartPreview] (constructed env) in
  file_exists (filename_at env s) s = false /\
  nth_error (trace (world (after (capture_photo env) s))) 18
    = Some (EvCaptureFile (filename_at env s)) /\
  nth_error (trace (world (after (capture_photo env) s))) 19 = Some EvStopPreview /\
  file_exists (filename_at env s) (after (capture_photo env) s) = true /\
  result (capture_photo env) s = Return None.
Proof. vm_compute. repeat split. Qed.

Lemma capture_photo_result_cases env s :
  (result (capture_photo env) s = Return (Some (filename_at env s)) \/
   result (capture_photo env) s = Return None) /\
  (result (capture_photo env) s = Return (Some (filename_at env s)) <->
   (exists r, result (capture_photo_body env) s = Return r) /\
   file_exists (filename_at env s) (after (capture_photo env) s) = true).
Proof.
  destruct s as [[pin ps ss dir cam run act pc stc] [tr cc pa si]].
  unfold filename_at. unfold_methods.
  split_cases; simpl_state;
    (split;
     [ auto
     | split;
       [ intro H; try discriminate;
         (split; [eexists; reflexivity | assumption])
       | intros [[r Hr] He]; try discriminate; try reflexivity;
         unfold file_exists in He; simpl_state; congruence ] ]).
Qed.

(** C9, as the code has it.  [capture_photo] never raises: it returns the
    path or [None].  It returns the path exactly when no call inside it
    raised and the file is there after the capture; a missing file and a
    call that raises both give [None].  The [c] command then goes on to the
    next turn of the loop, with [is_running] untouched. *)
Theorem capture_photo_returns_path_or_none env s text :
  strip (lower env text) = chars "c" ->
  (result (capture_photo env) s = Return (Some (filename_at env s)) \/
   result (capture_photo env) s = Return None) /\
  (result (capture_photo env) s = Return (Some (filename_at env s)) <->
   (exists r, result (capture_photo_body env) s = Return r) /\
   file_exists (filename_at env s) (after (capture_photo env) s) = true) /\
  result (loop_body env (Line text)) s = Return Continue /\
  is_running (self (after (loop_body env (Line text)) s)) = is_running (self s).
Proof.
  intro Hc.
  destruct (capture_photo_result_cases env s) as [H1 H2].
  split; [exact H1 |]. split; [exact H2 |].
  assert (E : exists s2, loop_body env (Line text) s = (Return Continue, s2) /\
                         is_running (self s2) = is_running (self s)).
  { unfold loop_body, bind at 1. cbn [input]. rewrite Hc, Text_eqb_refl.
    set (s1 := set_world _ s).
    assert (Hrun : is_running (self s1) = is_running (self s)) by reflexivity.
    pose proof (capture_photo_same_is_running env s1) as Hk.
    destruct (capture_photo_returns env s1) as [r Hr].
    unfold bind, same_is_running, result, after in *.
    destruct (capture_photo env s1) as [r' s2]. cbn in Hr, Hk. subst r'.
    exists s2. destruct r; cbn; split; first [reflexivity | congruence]. }
  destruct E as (s2 & E & Er). unfold result, after. rewrite E. cbn. auto.
Qed.

Lemma capture_photo_returns_path_or_none_witness :
  let s := session working [DoStartPreview] (constructed working) in
  strip (lower working (chars " C ")) = chars "c" /\
  result (capture_photo working) s = Return (Some (filename_at working s)) /\
  result (loop_body working (Line (chars " C "))) s = Return Continue.
Proof.
  intro s. split; [vm_compute; reflexivity |].
  assert (Hc : strip (lower working (chars " C ")) = chars "c") by (vm_compute; reflexivity).
  pose proof (capture_photo_returns_path_or_none working s (chars " C ") Hc)
    as (_ & H & Hloop & _).
  split; [| exact Hloop].
  apply H. split.
  - exists (Some "photos/photo_20240305_070809.jpg"). vm_compute. reflexivity.
  - vm_compute. reflexivity.
Defined.

(** ** Calling [start_preview] or [stop_preview] again *)

(** C6.  When whether a call raises does not depend on when it is made (a
    device that works, or one that keeps failing in the same way),
    [start_preview] and [stop_preview] are idempotent in every state: the
    flags and the applied configuration after two calls in a row are those
    after one. *)
Theorem start_stop_preview_idempotent env s :
  (forall n m ev, fault env n ev = fault env m ev) ->
  observable (after (start_preview env) (after (start_preview env) s))
    = observable (after (start_preview env) s) /\
  observable (after (stop_preview env) (after (stop_preview env) s))
    = observable (after (stop_preview env) s).
Proof.
  intro Hsteady.
  destruct s as [[pin ps ss dir cam run act pc stc] [tr cc pa si]].
  unfold observable. unfold_methods.
  split; split_cases; simpl_state;
    repeat match goal with
           | Hf : fault env ?n ?ev = _ |- _ =>
               lazymatch n with
               | O => fail
               | _ => rewrite (Hsteady n O ev) in Hf
               end
           end;
    first [ reflexivity | congruence ].
Qed.

Lemma start_stop_preview_idempotent_witness :
  let env := no_preview_window in
  let s := constructed env in
  (forall n m ev, fault env n ev = fault env m ev) /\
  observable (after (start_preview env) s)
    = (false, false, Some (preview_configuration default_preview_size)) /\
  observable (after (start_preview env) (after (start_preview env) s))
    = observable (after (start_preview env) s) /\
  observable (after (stop_preview env) (after (stop_preview env) s))
    = observable (after (stop_preview env) s).
Proof.
  intros env s.
  split; [intros n m ev; reflexivity |].
  split; [vm_compute; reflexivity |].
  apply (start_stop_preview_idempotent env s).
  intros n m ev. reflexivity.
Defined.




(** With collaborators that never raise, the first call always takes
    effect on a constructed controller. *)
Lemma toggle_takes_effect_when_working env a s :
  (forall n ev, fault env n ev = false) ->
  well_formed s ->
  a = DoStartPreview \/ a = DoStopPreview ->
  takes_effect a (perform env a s) = true.
Proof.
  intros Hf (_ & Hcam & Hpc & _ & _) Ha.
  destruct s as [[pin ps ss dir cam run act pc stc] w].
  cbn in Hcam, Hpc. subst cam pc.
  destruct Ha; subst a; cbn [perform takes_effect];
    unfold_methods; destruct act;
    repeat (simpl_state; rewrite ?Hf); reflexivity.
Qed.

(** ** Start-up failures *)

Lemma entered_loop_app evs more :
  entered_loop (evs ++ more) = entered_loop evs || entered_loop more.
Proof. apply existsb_app. Qed.

(** The constructor with no camera to open: it raises, before any
    [input()]. *)
Lemma PiCameraController_without_camera env pin ps ss w :
  (forall n, fault env n EvPicamera2 = true) ->
  exists e s evs,
    PiCameraController env pin ps ss w = (Raise e, s) /\
    trace (world s) = (trace w ++ evs)%list /\
    entered_loop evs = false.
Proof.
  intro Hcam. unfold blank. unfold_methods.
  split_cases; simpl_state;
    try (match goal with
         | H : fault env _ EvPicamera2 = false |- _ =>
             rewrite Hcam in H; discriminate
         end);
    do 3 eexists; (split; [reflexivity |]);
    repeat rewrite <- app_assoc; cbn [app]; (split; reflexivity).
Qed.

(** The constructor never reads the keyboard, and [main] returns without
    a controller whenever it raises. *)
Lemma PiCameraController_reads_no_input env pin ps ss w :
  exists evs,
    trace (world (snd (PiCameraController env pin ps ss w)))
      = (trace w ++ evs)%list /\
    entered_loop evs = false.
Proof.
  unfold blank. unfold_methods.
  split_cases; simpl_state; eexists;
    repeat rewrite <- app_assoc; cbn [app];
    first [ split; reflexivity
          | split; [symmetry; apply app_nil_r | reflexivity] ].
Qed.

Lemma main_when_constructor_raises env w e s :
  PiCameraController env 0 default_preview_size default_still_size w
    = (Raise e, s) ->
  main env w = (Return tt, world s) /\
  entered_loop (new_events w (world s)) = false.
Proof.
  intro E. unfold main. rewrite E. split; [reflexivity |].
  destruct (PiCameraController_reads_no_input env 0 default_preview_size
              default_still_size w) as (evs & T & L).
  rewrite E in T. cbn [snd] in T.
  rewrite (new_events_app _ _ _ T). exact L.
Qed.

Lemma main_without_camera env w :
  (forall n, fault env n EvPicamera2 = true) ->
  exists w' evs,
    main env w = (Return tt, w') /\
    trace w' = (trace w ++ evs)%list /\
    entered_loop evs = false.
Proof.
  intro Hcam.
  destruct (PiCameraController_without_camera env 0 default_preview_size
              default_still_size w Hcam) as (e & s & evs & E & Ht & Hl).
  exists (world s), evs. unfold main. rewrite E. auto.
Qed.

(** C1, as the code has it.  When the camera cannot be opened, neither
    run of [main] reaches the command loop, [main] swallows the error, and
    the interpreter exits with status 0. *)
Theorem script_without_camera env w :
  (forall n, fault env n EvPicamera2 = true) ->
  entered_loop (new_events w (snd (script env w))) = false /\
  exit_status (fst (script env w)) = 0.
Proof.
  intro Hcam.
  destruct (main_without_camera env w Hcam) as (w1 & evs1 & E1 & T1 & L1).
  destruct (main_without_camera env w1 Hcam) as (w2 & evs2 & E2 & T2 & L2).
  unfold script. rewrite E1, E2. cbn [fst snd exit_status].
  split; [| reflexivity].
  rewrite (new_events_app w w2 (evs1 ++ evs2)).
  - rewrite entered_loop_app, L1, L2. reflexivity.
  - rewrite T2, T1, app_assoc. reflexivity.
Qed.

Lemma script_without_camera_witness :
  (forall n, fault no_camera n EvPicamera2 = true) /\
  entered_loop (new_events (bare [Line (chars "c")]) (snd (script no_camera (bare [Line (chars "c")]))))
    = false /\
  exit_status (fst (script no_camera (bare [Line (chars "c")]))) = 0.
Proof.
  split; [intro n; reflexivity |].
  apply (script_without_camera no_camera (bare [Line (chars "c")])).
  intro n. reflexivity.
Defined.

(** C1, as stated, fails on the exit status: [_initialize_camera] raises,
    and the program still exits with 0. *)
Lemma no_camera_exit_status_zero :
  result (_initialize_camera no_camera)
    (mkState (blank 0 default_preview_size default_still_size) (bare [Line (chars "c")]))
    = Raise (Exception "device error") /\
  fst (PiCameraController no_camera 0 default_preview_size default_still_size
         (bare [Line (chars "c")]))
    = Raise (Exception "device error") /\
  ~ exit_status (fst (script no_camera (bare [Line (chars "c")]))) <> 0.
Proof.
  split; [vm_compute; reflexivity |]. split; [vm_compute; reflexivity |].
  intro H. apply H. vm_compute. reflexivity.
Qed.

(** Every turn of the loop starts by calling [input()]. *)
Lemma loop_body_logs_input env arrives s :
  exists evs,
    trace (world (after (loop_body env arrives) s))
      = (trace (world s) ++ EvInput :: evs)%list.
Proof.
  destruct s as [o w].
  unfold loop_body, apply_post_processing, _show_status. unfold_methods.
  split_cases; simpl_state; repeat rewrite <- app_assoc; cbn [app];
    eexists; reflexivity.
Qed.

Lemma while_is_running_logs_input env pending s :
  is_running (self s) = true ->
  exists evs,
    trace (world (after (while_is_running env pending) s))
      = (trace (world s) ++ EvInput :: evs)%list.
Proof.
  intro Hr. destruct pending as [| arrives rest]; unfold after; cbn; rewrite Hr.
  - exists []. reflexivity.
  - destruct (loop_body_logs_input env arrives s) as [evs E].
    unfold after in E.
    destruct (loop_body env arrives s) as [[[ | ] | e] s1]; cbn in *;
      try (exists evs; exact E).
    assert (G : extends_trace s1 (after (while_is_running env rest) s1)).
    { apply preserves_while_is_running; eauto with growing.
      intros _. apply setter_extends_trace. reflexivity. }
    destruct G as [more G]. exists (evs ++ more)%list.
    unfold after in G. rewrite G, E, <- app_assoc. reflexivity.
Qed.

Lemma command_loop_logs_input env s :
  is_running (self s) = true ->
  exists evs,
    trace (world (after
      (try_except_KeyboardInterrupt
         (fun s => while_is_running env (stdin (world s)) s)
         (set_is_running false)) s))
      = (trace (world s) ++ EvInput :: evs)%list.
Proof.
  intro Hr.
  destruct (while_is_running_logs_input env (stdin (world s)) s Hr) as [evs E].
  exists evs. unfold after, try_except_KeyboardInterrupt in *.
  destruct (while_is_running env (stdin (world s)) s) as [[u | [what | ]] s1];
    exact E.
Qed.

Ltac working_calls Hgpio Hrest :=
  try match goal with
      | H : fault _ _ EvGpioSetmode = false |- _ =>
          rewrite Hgpio in H; discriminate
      | H : fault _ _ ?ev = true |- _ =>
          rewrite (Hrest _ ev eq_refl) in H; discriminate
      end.

(** The constructor when only the GPIO service is out of order. *)
Lemma PiCameraController_without_gpio env pin ps ss w :
  (forall n, fault env n EvGpioSetmode = true) ->
  (forall n ev, is_gpio ev = false -> fault env n ev = false) ->
  exists s evs,
    PiCameraController env pin ps ss w = (Return tt, s) /\
    trace (world s) = (trace w ++ evs)%list /\
    picam2 (self s) = Some tt /\
    preview_config (self s) <> None /\
    preview_active (self s) = false.
Proof.
  intros Hgpio Hrest. unfold blank. unfold_methods.
  split_cases; simpl_state; working_calls Hgpio Hrest;
    do 2 eexists; (split; [reflexivity |]);
    repeat rewrite <- app_assoc; cbn [app];
    (split; [reflexivity |]); repeat split; discriminate.
Qed.

Lemma run_interactive_mode_enters_loop env s :
  (forall n ev, is_gpio ev = false -> fault env n ev = false) ->
  picam2 (self s) = Some tt ->
  preview_config (self s) <> None ->
  preview_active (self s) = false ->
  exists evs,
    trace (world (after (run_interactive_mode env) s))
      = (trace (world s) ++ evs)%list /\
    entered_loop evs = true.
Proof.
  intros Hrest Hcam Hpc Hact.
  destruct s as [[pin ps ss dir cam run act pc stc] w].
  cbn in Hcam, Hpc, Hact. subst cam act.
  destruct pc as [pc |]; [clear Hpc | contradiction].
  unfold after, run_interactive_mode.
  set (loop := try_except_KeyboardInterrupt _ (set_is_running false)).
  unfold_methods.
  split_cases; simpl_state;
    try match goal with
        | H : fault _ _ ?ev = true |- _ =>
            rewrite (Hrest _ ev eq_refl) in H; discriminate
        end.
  match goal with
  | |- context [loop ?s2] =>
      destruct (command_loop_logs_input env s2 eq_refl) as [evs E]
  end.
  unfold after in E. eexists. split.
  - etransitivity; [exact E |].
    simpl_state. repeat rewrite <- app_assoc. cbn [app]. reflexivity.
  - reflexivity.
Qed.

Lemma main_without_gpio env w :
  (forall n, fault env n EvGpioSetmode = true) ->
  (forall n ev, is_gpio ev = false -> fault env n ev = false) ->
  exists w' evs,
    main env w = (Return tt, w') /\
    trace w' = (trace w ++ evs)%list /\
    entered_loop evs = true.
Proof.
  intros Hgpio Hrest.
  destruct (PiCameraController_without_gpio env 0 default_preview_size
              default_still_size w Hgpio Hrest)
    as (s & evs0 & E & T0 & Hcam & Hpc & Hact).
  destruct (run_interactive_mode_enters_loop env s Hrest Hcam Hpc Hact)
    as (evs1 & T1 & L1).
  unfold main. rewrite E. unfold after in T1.
  destruct (run_interactive_mode env s) as [r s1]. cbn [snd] in T1.
  pose proof (cleanup_returns env s1) as Hc.
  destruct (perform_extends_trace env DoCleanup s1) as [evs2 T2].
  cbn [perform] in T2. unfold result, after in *.
  destruct (cleanup env s1) as [rc s2]. cbn [fst snd] in *. subst rc.
  exists (world s2), (evs0 ++ evs1 ++ evs2)%list.
  split; [reflexivity |]. split.
  - rewrite T2, T1, T0. repeat rewrite <- app_assoc. reflexivity.
  - rewrite !entered_loop_app, L1. apply orb_true_iff. right. reflexivity.
Qed.

(** C3, as the code has it.  [_setup_gpio] catches the failure of the GPIO
    service: when that is all that fails, the controller is constructed,
    both runs of [main] reach the command loop, and the program exits with
    status 0. *)
Theorem script_without_gpio env w :
  (forall n, fault env n EvGpioSetmode = true) ->
  (forall n ev, is_gpio ev = false -> fault env n ev = false) ->
  result (_setup_gpio env)
    (mkState (blank 0 default_preview_size default_still_size) w) = Return tt /\
  entered_loop (new_events w (snd (main env w))) = true /\
  entered_loop (new_events w (snd (script env w))) = true /\
  exit_status (fst (script env w)) = 0.
Proof.
  intros Hgpio Hrest.
  destruct (main_without_gpio env w Hgpio Hrest) as (w1 & evs1 & E1 & T1 & L1).
  destruct (main_without_gpio env w1 Hgpio Hrest) as (w2 & evs2 & E2 & T2 & L2).
  split; [apply _setup_gpio_returns |].
  unfold script. rewrite E1, E2. cbn [fst snd exit_status].
  split; [| split; [| reflexivity]].
  - rewrite (new_events_app w w1 evs1 T1). exact L1.
  - rewrite (new_events_app w w2 (evs1 ++ evs2)).
    + rewrite entered_loop_app, L1. reflexivity.
    + rewrite T2, T1, app_assoc. reflexivity.
Qed.

Lemma script_without_gpio_witness :
  (forall n, fault no_gpio n EvGpioSetmode = true) /\
  (forall n ev, is_gpio ev = false -> fault no_gpio n ev = false) /\
  entered_loop (new_events (bare [Line (chars "q")]) (snd (main no_gpio (bare [Line (chars "q")]))))
    = true /\
  exit_status (fst (script no_gpio (bare [Line (chars "q")]))) = 0.
Proof.
  split; [intro n; reflexivity |].
  split; [intros n ev H; exact H |].
  pose proof (script_without_gpio no_gpio (bare [Line (chars "q")])
                (fun n => eq_refl) (fun n ev H => H)) as (_ & Hm & _ & Hx).
  split; [exact Hm | exact Hx].
Defined.

(** C3, as stated, fails: with the GPIO service out of order the three
    calls of [_setup_gpio] stop at the first, which raises, and the program
    goes on to open the camera and to read commands. *)
Lemma no_gpio_command_loop_entered :
  let w := bare [Line (chars "q")] in
  fault no_gpio 1 EvGpioSetmode = true /\
  firstn 3 (new_events w (snd (script no_gpio w)))
    = [EvMakedirs "photos"; EvGpioSetmode; EvPicamera2] /\
  fst (PiCameraController no_gpio 0 default_preview_size default_still_size w)
    = Return tt /\
  entered_loop (new_events w (snd (script no_gpio w))) = true.
Proof. vm_compute. repeat split. Qed.

(** * Further properties *)

Ltac settle :=
  unfold raises in *; simpl_state;
  repeat rewrite <- app_assoc in *; cbn [app] in *;
  rewrite ?app_nil_r in *.

(** ** Construction *)

(** X1.  [_create_photos_dir] calls [os.makedirs] only when the directory
    is missing; once it has returned the directory is there, and running it
    again makes no call at all. *)
Theorem create_photos_dir_once env s :
  result (_create_photos_dir env) s = Return tt ->
  new_events (world s) (world (after (_create_photos_dir env) s))
    = (if file_exists (photos_dir (self s)) s then []
       else [EvMakedirs (photos_dir (self s))]) /\
  file_exists (photos_dir (self s)) (after (_create_photos_dir env) s) = true /\
  _create_photos_dir env (after (_create_photos_dir env) s)
    = (Return tt, after (_create_photos_dir env) s).
Proof.
  destruct s as [[pin ps ss dir cam run act pc stc] [tr cc pa si]].
  unfold file_exists. unfold_methods. simpl_state.
  destruct (existsb (String.eqb dir) pa) eqn:There; simpl_state.
  - intros _. rewrite There. unfold new_events. simpl_state.
    rewrite skipn_all. auto.
  - destruct (fault env (List.length tr) (EvMakedirs dir)); simpl_state;
      intro H; [discriminate |].
    normalize_trace. cbn [existsb]. rewrite String.eqb_refl. cbn [orb negb].
    auto.
Qed.

Lemma create_photos_dir_once_witness :
  let s := mkState (blank 0 default_preview_size default_still_size) (bare []) in
  result (_create_photos_dir working) s = Return tt /\
  new_events (world s) (world (after (_create_photos_dir working) s))
    = [EvMakedirs "photos"] /\
  _create_photos_dir working (after (_create_photos_dir working) s)
    = (Return tt, after (_create_photos_dir working) s).
Proof.
  intro s. split; [vm_compute; reflexivity |].
  assert (H : result (_create_photos_dir working) s = Return tt)
    by (vm_compute; reflexivity).
  destruct (create_photos_dir_once working s H) as (E & _ & Again).
  split; [exact E | exact Again].
Defined.

(** X2.  [_setup_gpio] never raises and never touches the controller's
    attributes.  It stops at the first GPIO call that raises: the button
    callback is registered, on [button_pin] with a 300 ms bounce time, only
    after [setmode] and [setup] have both returned. *)
Theorem setup_gpio_stops_at_first_failure env s :
  result (_setup_gpio env) s = Return tt /\
  self (after (_setup_gpio env) s) = self s /\
  new_events (world s) (world (after (_setup_gpio env) s))
    = (if raises env s [] EvGpioSetmode then [EvGpioSetmode]
       else if raises env s [EvGpioSetmode] (EvGpioSetup (button_pin (self s)))
       then [EvGpioSetmode; EvGpioSetup (button_pin (self s))]
       else [EvGpioSetmode; EvGpioSetup (button_pin (self s));
             EvGpioAddEventDetect (button_pin (self s)) 300]).
Proof.
  destruct s as [[pin ps ss dir cam run act pc stc] [tr cc pa si]].
  unfold raises. simpl_state. rewrite app_nil_r.
  unfold_methods. simpl_state.
  destruct (fault env (List.length tr) EvGpioSetmode); simpl_state;
    [normalize_trace; auto |].
  destruct (fault env (List.length (tr ++ [EvGpioSetmode])) (EvGpioSetup pin));
    simpl_state; [normalize_trace; auto |].
  destruct (fault env _ (EvGpioAddEventDetect pin 300)); simpl_state;
    normalize_trace; auto.
Qed.

Lemma constructor_initial_state_flags env pin ps ss w s :
  PiCameraController env pin ps ss w = (Return tt, s) ->
  is_running (self s) = false /\ preview_active (self s) = false.
Proof.
  unfold blank. unfold_methods.
  split_cases; simpl_state; intro H; inversion H; subst; simpl_state;
    split; reflexivity.
Qed.

(** X3.  A controller that has been constructed is idle: it is not
    running, the preview is off, it sits on the pin it was given, both
    profiles are as requested (the [lores] stream of 640x480 in YUV420 on
    the preview profile, one buffer on the still profile), and the device
    handle holds no configuration yet. *)
Theorem constructor_initial_state env pin ps ss w s :
  PiCameraController env pin ps ss w = (Return tt, s) ->
  is_running (self s) = false /\
  preview_active (self s) = false /\
  button_pin (self s) = pin /\
  preview_config (self s)
    = Some (mkConfig PreviewUse (mkStream ps None)
              (Some (mkStream (640, 480) (Some "YUV420"))) None) /\
  still_config (self s)
    = Some (mkConfig StillUse (mkStream ss None) None (Some 1)) /\
  applied s = None.
Proof.
  unfold blank. unfold_methods.
  split_cases; simpl_state; intro H; inversion H; subst; simpl_state;
    repeat split; reflexivity.
Qed.

Lemma constructor_initial_state_witness :
  PiCameraController working 7 (640, 480) (1920, 1080) (bare [])
    = (Return tt,
       snd (PiCameraController working 7 (640, 480) (1920, 1080) (bare []))) /\
  is_running
    (self (snd (PiCameraController working 7 (640, 480) (1920, 1080) (bare []))))
    = false.
Proof.
  split; [vm_compute; reflexivity |].
  apply (constructor_initial_state working 7 (640, 480) (1920, 1080) (bare [])).
  vm_compute. reflexivity.
Defined.

Ltac other_calls_work Hrest :=
  try match goal with
      | H : fault _ _ ?ev = true |- _ =>
          rewrite (Hrest _ ev eq_refl) in H; discriminate
      end.

(** X4.  No failure of the GPIO service, at [setmode], [setup] or
    [add_event_detect], in whatever pattern, keeps the controller from being
    constructed: when the file system and the camera work, the constructor
    returns. *)
Theorem constructor_survives_gpio_failures env pin ps ss w :
  (forall n ev, is_gpio ev = false -> fault env n ev = false) ->
  exists s,
    PiCameraController env pin ps ss w = (Return tt, s) /\
    picam2 (self s) = Some tt.
Proof.
  intro Hrest. unfold blank. unfold_methods.
  split_cases; simpl_state; other_calls_work Hrest;
    eexists; split; reflexivity.
Qed.

Lemma constructor_survives_gpio_failures_witness :
  (forall n ev, is_gpio ev = false -> fault no_gpio n ev = false) /\
  exists s,
    PiCameraController no_gpio 0 default_preview_size default_still_size (bare [])
      = (Return tt, s) /\
    picam2 (self s) = Some tt.
Proof.
  split; [intros n ev H; exact H |].
  apply (constructor_survives_gpio_failures no_gpio).
  intros n ev H. exact H.
Defined.

(** X5.  When the constructor raises, the call that raised is the last one
    made, and it is [os.makedirs] or one of the three camera calls, never a
    GPIO call; nothing is attempted after it. *)
Theorem constructor_raises_at_directory_or_camera env pin ps ss w e s :
  PiCameraController env pin ps ss w = (Raise e, s) ->
  exists done ev,
    new_events w (world s) = (done ++ [ev])%list /\
    fault env (List.length (trace w ++ done)) ev = true /\
    is_gpio ev = false /\
    (ev = EvMakedirs "photos" \/
     ev = EvPicamera2 \/
     ev = EvCreatePreviewConfiguration ps lores_request \/
     ev = EvCreateStillConfiguration ss 1) /\
    e = Exception "device error".
Proof.
  unfold blank. unfold_methods.
  split_cases; simpl_state; intro H; inversion H; subst; clear H;
    normalize_trace;
    repeat rewrite <- app_assoc in *; cbn [app] in *;
    match goal with
    | |- exists done ev, ?l = _ /\ _ =>
        exists (removelast l), (last l EvInput)
    end;
    cbn [removelast last];
    (split; [reflexivity |]);
    (split; [rewrite ?app_nil_r; assumption |]);
    (split; [reflexivity |]);
    (split; [auto 6 | reflexivity]).
Qed.

Lemma constructor_raises_at_directory_or_camera_witness :
  PiCameraController no_camera 0 default_preview_size default_still_size (bare [])
    = (Raise (Exception "device error"),
       snd (PiCameraController no_camera 0 default_preview_size
              default_still_size (bare []))) /\
  exists done ev,
    new_events (bare [])
      (world (snd (PiCameraController no_camera 0 default_preview_size
                     default_still_size (bare []))))
      = (done ++ [ev])%list /\
    is_gpio ev = false.
Proof.
  split; [vm_compute; reflexivity |].
  destruct (constructor_raises_at_directory_or_camera no_camera 0
              default_preview_size default_still_size (bare [])
              (Exception "device error")
              (snd (PiCameraController no_camera 0 default_preview_size
                      default_still_size (bare []))))
    as (done & ev & E & _ & G & _).
  - vm_compute. reflexivity.
  - exists done, ev. split; assumption.
Defined.

(** ** Preview on and off *)


(** X7.  [start_preview] from preview off issues [configure] with the
    preview profile, then [start_preview], then [start], and stops at the
    first that raises.  Both flags are set, together, only when all three
    have returned; a failure after [configure] leaves the flags down with
    the preview profile already applied. *)
Theorem start_preview_from_off env s pc :
  preview_active (self s) = false ->
  picam2 (self s) = Some tt ->
  preview_config (self s) = Some pc ->
  let configure_fails := raises env s [] (EvConfigure pc) in
  let window_fails := raises env s [EvConfigure pc] EvStartPreview in
  let start_fails := raises env s [EvConfigure pc; EvStartPreview] EvStart in
  let started := negb (configure_fails || window_fails || start_fails) in
  preview_active (self (after (start_preview env) s)) = started /\
  is_running (self (after (start_preview env) s)) = is_running (self s) || started /\
  applied (after (start_preview env) s)
    = (if configure_fails then applied s else Some pc) /\
  new_events (world s) (world (after (start_preview env) s))
    = (if configure_fails then [EvConfigure pc]
       else if window_fails then [EvConfigure pc; EvStartPreview]
       else [EvConfigure pc; EvStartPreview; EvStart]).
Proof.
  destruct s as [[pin ps ss dir cam run act pcf stc] [tr cc pa si]].
  simpl_state. intros Hact Hcam Hpc. subst act cam pcf.
  unfold raises. simpl_state. rewrite app_nil_r.
  change (tr ++ [EvConfigure pc; EvStartPreview])%list
    with (tr ++ [EvConfigure pc] ++ [EvStartPreview])%list.
  rewrite app_assoc.
  unfold_methods. simpl_state.
  destruct (fault env (List.length tr) (EvConfigure pc)); simpl_state;
    [normalize_trace; rewrite ?orb_false_r; auto |].
  destruct (fault env (List.length (tr ++ [EvConfigure pc])) EvStartPreview);
    simpl_state; [normalize_trace; rewrite ?orb_false_r; auto |].
  destruct (fault env _ EvStart); simpl_state;
    normalize_trace; rewrite ?orb_false_r, ?orb_true_r; auto.
Qed.

Lemma start_preview_from_off_witness :
  let s := constructed (fails_at 8) in
  let pc := preview_configuration default_preview_size in
  preview_active (self s) = false /\
  picam2 (self s) = Some tt /\
  preview_config (self s) = Some pc /\
  preview_active (self (after (start_preview (fails_at 8)) s)) = false /\
  applied (after (start_preview (fails_at 8)) s) = Some pc.
Proof.
  intros s pc.
  split; [vm_compute; reflexivity |]. split; [vm_compute; reflexivity |].
  split; [vm_compute; reflexivity |].
  destruct (start_preview_from_off (fails_at 8) s pc)
    as (Hflag & _ & Happ & _); try (vm_compute; reflexivity).
  split; [rewrite Hflag | rewrite Happ]; vm_compute; reflexivity.
Defined.

(** X8.  [stop_preview] from preview on issues [stop_preview] and, only if
    that returned, [stop]; the flag is cleared only when both have returned.
    In no case does it change the configuration the device holds. *)
Theorem stop_preview_from_on env s :
  preview_active (self s) = true ->
  picam2 (self s) = Some tt ->
  let window_fails := raises env s [] EvStopPreview in
  let stop_fails := raises env s [EvStopPreview] EvStop in
  preview_active (self (after (stop_preview env) s)) = window_fails || stop_fails /\
  applied (after (stop_preview env) s) = applied s /\
  new_events (world s) (world (after (stop_preview env) s))
    = (if window_fails then [EvStopPreview] else [EvStopPreview; EvStop]).
Proof.
  destruct s as [[pin ps ss dir cam run act pcf stc] [tr cc pa si]].
  simpl_state. intros Hact Hcam. subst act cam.
  unfold raises. simpl_state. rewrite app_nil_r.
  unfold_methods. simpl_state.
  destruct (fault env (List.length tr) EvStopPreview); simpl_state;
    [normalize_trace; auto |].
  destruct (fault env _ EvStop); simpl_state; normalize_trace; auto.
Qed.

Lemma stop_preview_from_on_witness :
  let s := session working [DoStartPreview] (constructed working) in
  preview_active (self s) = true /\
  picam2 (self s) = Some tt /\
  preview_active (self (after (stop_preview working) s)) = false /\
  applied (after (stop_preview working) s) = applied s.
Proof.
  intro s.
  split; [vm_compute; reflexivity |]. split; [vm_compute; reflexivity |].
  destruct (stop_preview_from_on working s) as (Hflag & Happ & _);
    try (vm_compute; reflexivity).
  split; [rewrite Hflag; vm_compute; reflexivity | exact Happ].
Defined.

(** ** The device is configured whenever the session is armed *)

Ltac armed_cases :=
  unfold configured_when_armed, armed; simpl_state;
  intros Inv Armed;
  repeat match goal with
         | b : bool |- _ => destruct b
         end;
  simpl_state; cbn [orb] in *;
  try discriminate;
  try (apply Inv; reflexivity).

Lemma start_preview_configured_when_armed env s :
  configured_when_armed s -> configured_when_armed (after (start_preview env) s).
Proof.
  destruct s as [[pin ps ss dir cam run act pc stc] [tr [c |] pa si]];
    unfold_methods; split_cases; armed_cases.
Qed.

Lemma stop_preview_configured_when_armed env s :
  configured_when_armed s -> configured_when_armed (after (stop_preview env) s).
Proof.
  destruct s as [[pin ps ss dir cam run act pc stc] [tr [c |] pa si]];
    unfold_methods; split_cases; armed_cases.
Qed.

Lemma capture_photo_configured_when_armed env s :
  configured_when_armed s -> configured_when_armed (after (capture_photo env) s).
Proof.
  destruct s as [[pin ps ss dir cam run act pc stc] [tr [c |] pa si]];
    unfold_methods; split_cases; armed_cases.
Qed.

Lemma get_camera_info_configured_when_armed env s :
  configured_when_armed s ->
  configured_when_armed (after (get_camera_info env) s).
Proof.
  destruct s as [[pin ps ss dir cam run act pc stc] [tr [c |] pa si]];
    unfold_methods; split_cases; armed_cases.
Qed.

Lemma cleanup_configured_when_armed env s :
  configured_when_armed s -> configured_when_armed (after (cleanup env) s).
Proof.
  destruct s as [[pin ps ss dir cam run act pc stc] [tr [c |] pa si]];
    unfold_methods; split_cases; armed_cases.
Qed.

Lemma loop_body_configured_when_armed env arrives s :
  configured_when_armed s ->
  configured_when_armed (after (loop_body env arrives) s).
Proof.
  destruct s as [[pin ps ss dir cam run act pc stc] [tr [c |] pa si]];
    unfold loop_body, apply_post_processing, _show_status;
    unfold_methods; split_cases; armed_cases.
Qed.

Lemma while_is_running_configured_when_armed env pending s :
  configured_when_armed s ->
  configured_when_armed (after (while_is_running env pending) s).
Proof.
  revert s. induction pending as [| arrives rest IH]; intros s Inv;
    unfold after; cbn.
  - destruct (is_running (self s)) eqn:Hr; [| exact Inv].
    destruct s as [o [tr cc pa si]]. exact Inv.
  - destruct (is_running (self s)); [| exact Inv].
    pose proof (loop_body_configured_when_armed env arrives s Inv) as Hb.
    unfold after in Hb.
    destruct (loop_body env arrives s) as [[[ | ] | e] s1]; cbn in *; auto.
    apply IH. exact Hb.
Qed.

Lemma run_interactive_mode_configured_when_armed env s :
  configured_when_armed s ->
  configured_when_armed (after (run_interactive_mode env) s).
Proof.
  intro Inv. unfold after, run_interactive_mode, bind.
  pose proof (get_camera_info_configured_when_armed env s Inv) as H1.
  destruct (get_camera_info_returns env s) as [r1 E1].
  unfold result, after in *.
  destruct (get_camera_info env s) as [o1 s1]. cbn in *. subst o1.
  pose proof (start_preview_configured_when_armed env s1 H1) as H2.
  pose proof (start_preview_returns env s1) as E2.
  unfold result, after in *.
  destruct (start_preview env s1) as [o2 s2]. cbn in *. subst o2.
  pose proof (while_is_running_configured_when_armed env (stdin (world s2)) s2 H2)
    as H3.
  unfold try_except_KeyboardInterrupt, after in *.
  destruct (while_is_running env (stdin (world s2)) s2) as [[u | [what | ]] s3];
    cbn in *; auto.
  destruct s3 as [[pin ps ss dir cam run act pc stc] [tr cc pa si]].
  revert H3. unfold configured_when_armed, armed. cbn.
  intros H3 A. destruct cc; [discriminate |].
  destruct act; [| discriminate]. apply H3. apply orb_true_r.
Qed.

Lemma perform_configured_when_armed env a s :
  configured_when_armed s -> configured_when_armed (perform env a s).
Proof.
  intro Inv. destruct a; cbn [perform].
  - apply start_preview_configured_when_armed; exact Inv.
  - apply stop_preview_configured_when_armed; exact Inv.
  - apply capture_photo_configured_when_armed; exact Inv.
  - unfold after, _button_pressed, bind, get_self. cbn.
    destruct (is_running (self s)); [| exact Inv].
    pose proof (capture_photo_configured_when_armed env s Inv) as H.
    unfold after in H.
    destruct (capture_photo env s) as [[r | e] s1]; exact H.
  - apply get_camera_info_configured_when_armed; exact Inv.
  - exact Inv.
  - apply loop_body_configured_when_armed; exact Inv.
  - apply run_interactive_mode_configured_when_armed; exact Inv.
  - apply cleanup_configured_when_armed; exact Inv.
Qed.

(** X9.  In every session of a constructed controller, whenever the
    button is live ([is_running]) or the preview flag is up, the device
    holds a configuration: the flags are raised only after [configure] has
    returned, and nothing a session does takes a configuration away. *)
Theorem session_configured_when_armed env pin ps ss w s0 acts :
  PiCameraController env pin ps ss w = (Return tt, s0) ->
  armed (session env acts s0) = true ->
  applied (session env acts s0) <> None.
Proof.
  intros Hnew.
  assert (Inv0 : configured_when_armed s0).
  { destruct (constructor_initial_state_flags env pin ps ss w s0 Hnew)
      as (Hr & Ha).
    unfold configured_when_armed, armed. rewrite Hr, Ha. discriminate. }
  clear Hnew. revert s0 Inv0.
  induction acts as [| a acts IH]; intros s0 Inv0; cbn [session fold_left].
  - exact Inv0.
  - apply IH. apply perform_configured_when_armed. exact Inv0.
Qed.

Lemma session_configured_when_armed_witness :
  PiCameraController working 0 default_preview_size default_still_size (bare [])
    = (Return tt, constructed working) /\
  armed (session working [DoStartPreview; DoStopPreview; DoCapturePhoto]
           (constructed working)) = true /\
  applied (session working [DoStartPreview; DoStopPreview; DoCapturePhoto]
             (constructed working)) <> None.
Proof.
  split; [vm_compute; reflexivity |]. split; [vm_compute; reflexivity |].
  apply (session_configured_when_armed working 0 default_preview_size
           default_still_size (bare []));
    vm_compute; reflexivity.
Defined.

(** ** More on [capture_photo] *)

(** X10.  Asked for a photo before any configuration has been applied (a
    controller whose preview was never started), [capture_photo] reads the
    clock and the configuration, gives up on the missing configuration and
    returns [None]: [capture_file] is never called, no file appears, the
    device stays unconfigured. *)
Theorem capture_photo_unconfigured env s :
  applied s = None ->
  result (capture_photo env) s = Return None /\
  existsb is_capture_file
    (new_events (world s) (world (after (capture_photo env) s))) = false /\
  paths (world (after (capture_photo env) s)) = paths (world s) /\
  applied (after (capture_photo env) s) = None /\
  self (after (capture_photo env) s) = self s.
Proof.
  destruct s as [[pin ps ss dir cam run act pc stc] [tr cc pa si]].
  simpl_state. intro H. subst cc.
  unfold_methods. split_cases; simpl_state; normalize_trace;
    repeat split; reflexivity.
Qed.

Lemma capture_photo_unconfigured_witness :
  applied (constructed working) = None /\
  result (capture_photo working) (constructed working) = Return None /\
  paths (world (after (capture_photo working) (constructed working)))
    = paths (world (constructed working)).
Proof.
  split; [vm_compute; reflexivity |].
  destruct (capture_photo_unconfigured working (constructed working))
    as (R & _ & P & _); [vm_compute; reflexivity |].
  split; assumption.
Defined.

(** X11.  When the device already holds a configuration of the still
    resolution, [capture_photo] takes the photo in place: whether it
    succeeds or fails, it never stops, reconfigures or restarts the device,
    never sleeps, and leaves the configuration as it was. *)
Theorem capture_photo_in_place env s c sc :
  applied s = Some c ->
  still_config (self s) = Some sc ->
  Size_eqb (main_size c) (main_size sc) = true ->
  existsb is_reconfigure
    (new_events (world s) (world (after (capture_photo env) s))) = false /\
  applied (after (capture_photo env) s) = Some c.
Proof.
  destruct s as [[pin ps ss dir cam run act pc stc] [tr cc pa si]].
  simpl_state. intros Hc Hsc He. subst cc stc.
  unfold_methods.
  split_cases; simpl_state; try (rewrite He in *; discriminate);
    normalize_trace; split; reflexivity.
Qed.

Lemma capture_photo_in_place_witness :
  let s := session working [DoStartPreview; DoStopPreview; DoCapturePhoto]
             (constructed working) in
  let sc := still_configuration default_still_size in
  applied s = Some sc /\
  still_config (self s) = Some sc /\
  Size_eqb (main_size sc) (main_size sc) = true /\
  applied (after (capture_photo working) s) = Some sc.
Proof.
  intros s sc.
  split; [vm_compute; reflexivity |]. split; [vm_compute; reflexivity |].
  split; [vm_compute; reflexivity |].
  apply (capture_photo_in_place working s sc sc); vm_compute; reflexivity.
Defined.

(** X12.  The calls of a successful [capture_photo], in full: the clock
    and the configuration are read; if the resolution differs the device is
    switched to the still profile; [capture_file] is called; if the device
    was switched and the preview flag is up it is switched back with
    [stop_preview], [stop], [configure] of the preview profile,
    [start_preview], [start], in this order; last, the file size is
    read. *)
Theorem capture_photo_success_calls env s path c sc pc :
  result (capture_photo env) s = Return (Some path) ->
  applied s = Some c ->
  still_config (self s) = Some sc ->
  preview_config (self s) = Some pc ->
  new_events (world s) (world (after (capture_photo env) s))
    = capture_calls (preview_active (self s))
        (negb (Size_eqb (main_size c) (main_size sc))) path pc sc.
Proof.
  destruct s as [[pin ps ss dir cam run act pcf stc] [tr cc pa si]].
  simpl_state. intros H Hc Hsc Hpc. subst cc stc pcf. revert H.
  unfold_methods.
  split_cases; simpl_state; intro H; try discriminate;
    inversion H; subst; normalize_trace;
    unfold capture_calls, switch_to_still;
    repeat match goal with
           | E : negb _ = _ |- _ => rewrite E
           end;
    cbn [andb app]; try reflexivity; try congruence.
Qed.

Lemma capture_photo_success_calls_witness :
  let s := session working [DoStartPreview] (constructed working) in
  let path := "photos/photo_20240305_070809.jpg" in
  let pc := preview_configuration default_preview_size in
  let sc := still_configuration default_still_size in
  result (capture_photo working) s = Return (Some path) /\
  applied s = Some pc /\
  still_config (self s) = Some sc /\
  preview_config (self s) = Some pc /\
  new_events (world s) (world (after (capture_photo working) s))
    = [EvNow; EvCameraConfiguration;
       EvStopPreview; EvStop; EvConfigure sc; EvStart; EvStartPreview; EvSleep 1;
       EvCaptureFile path;
       EvStopPreview; EvStop; EvConfigure pc; EvStartPreview; EvStart;
       EvGetsize path].
Proof.
  intros s path pc sc.
  split; [vm_compute; reflexivity |]. split; [vm_compute; reflexivity |].
  split; [vm_compute; reflexivity |]. split; [vm_compute; reflexivity |].
  rewrite (capture_photo_success_calls working s path pc sc pc);
    vm_compute; reflexivity.
Defined.

(** ** The command loop *)

(** X13.  A line that is neither [c] nor [q] once lowered and stripped of
    every blank [str.strip] removes, the Unicode ones included (the [s]
    command, an unknown command, an empty line), costs one [input()] and
    nothing else: the loop goes on, the controller and the device are as
    they were, and no other call is made. *)
Theorem loop_body_other_command env text s :
  Text_eqb (strip (lower env text)) (chars "c") = false ->
  Text_eqb (strip (lower env text)) (chars "q") = false ->
  result (loop_body env (Line text)) s = Return Continue /\
  self (after (loop_body env (Line text)) s) = self s /\
  applied (after (loop_body env (Line text)) s) = applied s /\
  paths (world (after (loop_body env (Line text)) s)) = paths (world s) /\
  new_events (world s) (world (after (loop_body env (Line text)) s)) = [EvInput].
Proof.
  intros Hc Hq. destruct s as [o [tr cc pa si]].
  assert (E : loop_body env (Line text) (mkState o (mkWorld tr cc pa si))
              = (Return Continue,
                 mkState o (mkWorld (tr ++ [EvInput]) cc pa (tl si)))).
  { unfold loop_body, bind at 1. cbn [input]. rewrite Hc, Hq.
    destruct (Text_eqb (strip (lower env text)) (chars "s")); reflexivity. }
  unfold result, after. rewrite E. cbn.
  normalize_trace. repeat split; reflexivity.
Qed.

Lemma loop_body_other_command_witness :
  Text_eqb (strip (lower working (chars "  Help "))) (chars "c") = false /\
  Text_eqb (strip (lower working (chars "  Help "))) (chars "q") = false /\
  result (loop_body working (Line (chars "  Help "))) (constructed working)
    = Return Continue /\
  self (after (loop_body working (Line (chars "  Help "))) (constructed working))
    = self (constructed working).
Proof.
  split; [vm_compute; reflexivity |]. split; [vm_compute; reflexivity |].
  destruct (loop_body_other_command working (chars "  Help ") (constructed working))
    as (R & S & _); try (vm_compute; reflexivity).
  split; assumption.
Defined.

(** X14.  The [q] command, in any case and with any blanks around it, ends
    the loop at once: [is_running] is cleared, the loop returns normally,
    nothing but the one [input()] has been called, and the lines that
    follow on standard input are left unread. *)
Theorem quit_command_ends_loop env text rest s :
  is_running (self s) = true ->
  strip (lower env text) = chars "q" ->
  stdin (world s) = Line text :: rest ->
  result (while_is_running env (stdin (world s))) s = Return tt /\
  is_running (self (after (while_is_running env (stdin (world s))) s)) = false /\
  preview_active (self (after (while_is_running env (stdin (world s))) s))
    = preview_active (self s) /\
  stdin (world (after (while_is_running env (stdin (world s))) s)) = rest /\
  new_events (world s)
    (world (after (while_is_running env (stdin (world s))) s)) = [EvInput].
Proof.
  intros Hr Hq Hin. destruct s as [o [tr cc pa si]].
  cbn in Hr, Hin. subst si.
  assert (E : while_is_running env (Line text :: rest)
                (mkState o (mkWorld tr cc pa (Line text :: rest)))
              = (Return tt,
                 after (set_is_running false)
                   (mkState o (mkWorld (tr ++ [EvInput]) cc pa rest)))).
  { cbn [while_is_running self]. rewrite Hr.
    unfold loop_body, bind at 1. cbn [input]. rewrite Hq. reflexivity. }
  unfold result, after in *. cbn [world stdin]. rewrite E. cbn.
  normalize_trace. repeat split; reflexivity.
Qed.

Lemma quit_command_ends_loop_witness :
  let s := set_world (mkWorld [] None [] [Line (chars " Q "); Line (chars "c")])
             (session working [DoStartPreview] (constructed working)) in
  is_running (self s) = true /\
  strip (lower working (chars " Q ")) = chars "q" /\
  stdin (world s) = [Line (chars " Q "); Line (chars "c")] /\
  stdin (world (after (while_is_running working (stdin (world s))) s))
    = [Line (chars "c")].
Proof.
  intro s.
  split; [vm_compute; reflexivity |]. split; [vm_compute; reflexivity |].
  split; [vm_compute; reflexivity |].
  destruct (quit_command_ends_loop working (chars " Q ") [Line (chars "c")] s)
    as (_ & _ & _ & H & _); [vm_compute; reflexivity .. | exact H].
Defined.



Lemma startup_reads_no_input env s :
  stdin (world (after (start_preview env) (after (get_camera_info env) s)))
    = stdin (world s) /\
  exists evs,
    trace (world (after (start_preview env) (after (get_camera_info env) s)))
      = (trace (world s) ++ evs)%list /\
    entered_loop evs = false.
Proof.
  destruct s as [o w]. unfold_methods.
  split_cases; simpl_state; (split; [reflexivity |]); eexists;
    repeat rewrite <- app_assoc; cbn [app];
    first [ split; reflexivity
          | split; [symmetry; apply app_nil_r | reflexivity] ].
Qed.

Lemma run_interactive_mode_unfold env s :
  run_interactive_mode env s
    = try_except_KeyboardInterrupt
        (fun s => while_is_running env (stdin (world s)) s)
        (set_is_running false)
        (after (start_preview env) (after (get_camera_info env) s)).
Proof.
  unfold run_interactive_mode, bind, after.
  destruct (get_camera_info_returns env s) as [r1 E1]. unfold result in E1.
  destruct (get_camera_info env s) as [o1 s1]. cbn in *. subst o1.
  pose proof (start_preview_returns env s1) as E2. unfold result in E2.
  destruct (start_preview env s1) as [o2 s2]. cbn in *. subst o2. reflexivity.
Qed.


(** X16.  If [is_running] is still down once [start_preview] has returned
    (a device call raised while the preview was being started),
    [run_interactive_mode] returns at once: it never calls [input()] and
    leaves standard input unread. *)
Theorem run_interactive_mode_without_preview env s :
  is_running (self (after (start_preview env) (after (get_camera_info env) s)))
    = false ->
  result (run_interactive_mode env) s = Return tt /\
  entered_loop
    (new_events (world s) (world (after (run_interactive_mode env) s))) = false /\
  stdin (world (after (run_interactive_mode env) s)) = stdin (world s).
Proof.
  intro Hr. unfold result, after in *. rewrite run_interactive_mode_unfold.
  unfold after.
  destruct (startup_reads_no_input env s) as (Hin & evs & T & L).
  unfold after in *.
  set (s2 := snd (start_preview env (snd (get_camera_info env s)))) in *.
  assert (W : while_is_running env (stdin (world s2)) s2 = (Return tt, s2)).
  { destruct (stdin (world s2)); cbn; rewrite Hr; reflexivity. }
  unfold try_except_KeyboardInterrupt. rewrite W. cbn.
  split; [reflexivity |]. split; [| exact Hin].
  rewrite (new_events_app _ _ _ T). exact L.
Qed.

Lemma run_interactive_mode_without_preview_witness :
  let env := fails_at 9 in
  let s := set_world (mkWorld (trace (world (constructed env))) None ["photos"]
                        [Line (chars "c"); Line (chars "q")])
             (constructed env) in
  is_running (self (after (start_preview env) (after (get_camera_info env) s)))
    = false /\
  result (run_interactive_mode env) s = Return tt /\
  stdin (world (after (run_interactive_mode env) s)) = [Line (chars "c"); Line (chars "q")].
Proof.
  intros env s.
  split; [vm_compute; reflexivity |].
  destruct (run_interactive_mode_without_preview env s)
    as (R & _ & I); [vm_compute; reflexivity |].
  split; [exact R | exact I].
Defined.

(** ** Shutting down *)

Lemma cleanup_calls env s :
  picam2 (self s) = Some tt ->
  is_running (self (after (cleanup env) s)) = false /\
  picam2 (self (after (cleanup env) s)) = Some tt /\
  exists pre,
    forallb is_preview_stop pre = true /\
    new_events (world s) (world (after (cleanup env) s))
      = (pre ++ EvClose ::
           (if raises env s pre EvClose then [] else [EvGpioCleanup]))%list.
Proof.
  destruct s as [[pin ps ss dir cam run act pc stc] [tr cc pa si]].
  simpl_state. intro Hcam. subst cam.
  unfold_methods.
  split_cases; simpl_state; (split; [reflexivity |]); (split; [reflexivity |]);
    normalize_trace;
    match goal with
    | |- exists pre, _ /\ ?l = _ => exists (filter is_preview_stop l)
    end;
    cbn [filter is_preview_stop forallb andb app];
    (split; [reflexivity |]);
    unfold raises; simpl_state;
    repeat rewrite <- app_assoc in *; cbn [app] in *; rewrite ?app_nil_r in *;
    match goal with
    | H : fault _ _ EvClose = _ |- _ => rewrite H
    end;
    reflexivity.
Qed.

(** X17.  [cleanup] on a constructed controller always clears
    [is_running] and always calls [close] on the camera, once, even when
    stopping the preview raised; [GPIO.cleanup] follows only if [close]
    returned.  It keeps the handle in [picam2], and from then on a button
    press does nothing. *)
Theorem cleanup_releases_camera env s channel :
  picam2 (self s) = Some tt ->
  is_running (self (after (cleanup env) s)) = false /\
  picam2 (self (after (cleanup env) s)) = Some tt /\
  (exists pre,
     forallb is_preview_stop pre = true /\
     new_events (world s) (world (after (cleanup env) s))
       = (pre ++ EvClose ::
            (if raises env s pre EvClose then [] else [EvGpioCleanup]))%list) /\
  _button_pressed env channel (after (cleanup env) s)
    = (Return tt, after (cleanup env) s).
Proof.
  intro Hcam. destruct (cleanup_calls env s Hcam) as (Hr & Hc & Hev).
  repeat split; try assumption.
  unfold _button_pressed, bind, get_self. rewrite Hr. reflexivity.
Qed.

Lemma cleanup_releases_camera_witness :
  let env := fails_at 10 in
  let s := session env [DoStartPreview] (constructed env) in
  picam2 (self s) = Some tt /\
  preview_active (self (after (cleanup env) s)) = true /\
  is_running (self (after (cleanup env) s)) = false /\
  new_events (world s) (world (after (cleanup env) s))
    = [EvStopPreview; EvClose; EvGpioCleanup].
Proof.
  intros env s.
  split; [vm_compute; reflexivity |]. split; [vm_compute; reflexivity |].
  destruct (cleanup_releases_camera env s 0) as (R & _ & _ & _);
    [vm_compute; reflexivity |].
  split; [exact R | vm_compute; reflexivity].
Defined.

(** X18.  Whenever [main] has constructed the controller it releases the
    camera before it returns, however the command loop ended (quit,
    interrupt, end of input, a preview that never started): the last calls
    of [main] are [close], followed by [GPIO.cleanup] unless [close]
    raised. *)
Theorem main_releases_camera env w s0 :
  PiCameraController env 0 default_preview_size default_still_size w
    = (Return tt, s0) ->
  exists before,
    new_events w (snd (main env w)) = (before ++ [EvClose])%list \/
    new_events w (snd (main env w)) = (before ++ [EvClose; EvGpioCleanup])%list.
Proof.
  intro Hnew.
  destruct (PiCameraController_well_formed _ _ _ _ _ _ Hnew) as (Hwf & _).
  destruct (PiCameraController_reads_no_input env 0 default_preview_size
              default_still_size w) as (evs0 & T0 & _).
  rewrite Hnew in T0. cbn [snd] in T0.
  destruct (perform_keeps_well_formed env DoRunInteractiveMode s0 Hwf)
    as ((_ & Hcam & _) & _).
  destruct (perform_extends_trace env DoRunInteractiveMode s0) as [evs1 T1].
  cbn [perform] in Hcam, T1.
  unfold main. rewrite Hnew. unfold after in Hcam, T1.
  destruct (run_interactive_mode env s0) as [r s1]. cbn [snd] in Hcam, T1.
  destruct (cleanup_calls env s1 Hcam) as (_ & _ & pre & _ & Hev).
  destruct (perform_extends_trace env DoCleanup s1) as [evs2 T2].
  cbn [perform] in T2.
  rewrite (new_events_app _ _ _ T2) in Hev. subst evs2.
  pose proof (cleanup_returns env s1) as Hc.
  unfold result, after in *.
  destruct (cleanup env s1) as [rc s2]. cbn [fst snd] in *. subst rc.
  cbn [snd].
  exists (evs0 ++ evs1 ++ pre)%list.
  destruct (raises env s1 pre EvClose); [left | right];
    apply new_events_app; rewrite T2, T1, T0;
    repeat rewrite <- app_assoc; reflexivity.
Qed.

Lemma main_releases_camera_witness :
  PiCameraController working 0 default_preview_size default_still_size
    (bare [CtrlC])
    = (Return tt,
       snd (PiCameraController working 0 default_preview_size default_still_size
              (bare [CtrlC]))) /\
  exists before,
    new_events (bare [CtrlC]) (snd (main working (bare [CtrlC])))
      = (before ++ [EvClose])%list \/
    new_events (bare [CtrlC]) (snd (main working (bare [CtrlC])))
      = (before ++ [EvClose; EvGpioCleanup])%list.
Proof.
  split; [vm_compute; reflexivity |].
  apply (main_releases_camera working (bare [CtrlC])
           (snd (PiCameraController working 0 default_preview_size
                   default_still_size (bare [CtrlC])))).
  vm_compute. reflexivity.
Defined.


(** ** File names *)

Lemma append_cancel_l (p a b : string) : p ++ a = p ++ b -> a = b.
Proof.
  induction p as [| c p IH]; cbn; intro H; [exact H |].
  apply IH. congruence.
Qed.

Lemma string_length_append (a b : string) :
  String.length (a ++ b) = (String.length a + String.length b)%nat.
Proof. induction a as [| c a IH]; cbn; [| rewrite IH]; reflexivity. Qed.

Lemma digit_eq a b : digit a = digit b -> Nat.modulo a 10 = Nat.modulo b 10.
Proof.
  unfold digit. intro H. apply (f_equal nat_of_ascii) in H.
  assert (Ha : (Nat.modulo a 10 < 10)%nat) by (apply Nat.mod_upper_bound; lia).
  assert (Hb : (Nat.modulo b 10 < 10)%nat) by (apply Nat.mod_upper_bound; lia).
  rewrite !nat_ascii_embedding in H by lia. lia.
Qed.

Lemma pad2_equation n :
  pad2 n = String (digit (Nat.div n 10)) (String (digit n) "").
Proof. reflexivity. Qed.

Lemma pad4_equation n :
  pad4 n = String (digit (Nat.div n 1000))
             (String (digit (Nat.div n 100))
                (String (digit (Nat.div n 10)) (String (digit n) ""))).
Proof. reflexivity. Qed.

Lemma pad2_eq a b :
  (a < 100)%nat -> (b < 100)%nat -> pad2 a = pad2 b -> a = b.
Proof.
  intros Ha Hb H. rewrite !pad2_equation in H.
  assert (H1 : digit (Nat.div a 10) = digit (Nat.div b 10)) by congruence.
  assert (H0 : digit a = digit b) by congruence.
  clear H.
  apply digit_eq in H1, H0.
  pose proof (Nat.div_mod_eq a 10). pose proof (Nat.div_mod_eq b 10).
  assert (Nat.div a 10 < 10)%nat by (apply Nat.Div0.div_lt_upper_bound; lia).
  assert (Nat.div b 10 < 10)%nat by (apply Nat.Div0.div_lt_upper_bound; lia).
  rewrite (Nat.mod_small (Nat.div a 10)), (Nat.mod_small (Nat.div b 10)) in H1
    by assumption.
  lia.
Qed.

Lemma pad4_eq a b :
  (a < 100 * 100)%nat -> (b < 100 * 100)%nat -> pad4 a = pad4 b -> a = b.
Proof.
  intros Ha Hb H. rewrite !pad4_equation in H.
  assert (H3 : digit (Nat.div a 1000) = digit (Nat.div b 1000)) by congruence.
  assert (H2 : digit (Nat.div a 100) = digit (Nat.div b 100)) by congruence.
  assert (H1 : digit (Nat.div a 10) = digit (Nat.div b 10)) by congruence.
  assert (H0 : digit a = digit b) by congruence.
  clear H.
  apply digit_eq in H3, H2, H1, H0.
  assert (Q : forall n, Nat.div n 100 = Nat.div (Nat.div n 10) 10 /\
                        Nat.div n 1000 = Nat.div (Nat.div (Nat.div n 10) 10) 10).
  { intro n. rewrite !Nat.Div0.div_div. split; reflexivity. }
  destruct (Q a) as [Qa2 Qa3]. destruct (Q b) as [Qb2 Qb3].
  rewrite Qa3, Qb3 in H3. rewrite Qa2, Qb2 in H2. clear Q Qa2 Qa3 Qb2 Qb3.
  pose proof (Nat.div_mod_eq a 10).
  pose proof (Nat.div_mod_eq b 10).
  pose proof (Nat.div_mod_eq (Nat.div a 10) 10).
  pose proof (Nat.div_mod_eq (Nat.div b 10) 10).
  pose proof (Nat.div_mod_eq (Nat.div (Nat.div a 10) 10) 10).
  pose proof (Nat.div_mod_eq (Nat.div (Nat.div b 10) 10) 10).
  pose proof (Nat.div_mod_eq (Nat.div (Nat.div (Nat.div a 10) 10) 10) 10).
  pose proof (Nat.div_mod_eq (Nat.div (Nat.div (Nat.div b 10) 10) 10) 10).
  assert (B : forall n, (Nat.modulo n 10 < 10)%nat)
    by (intro n; apply Nat.mod_upper_bound; lia).
  pose proof (B a). pose proof (B b).
  pose proof (B (Nat.div a 10)). pose proof (B (Nat.div b 10)).
  pose proof (B (Nat.div (Nat.div a 10) 10)).
  pose proof (B (Nat.div (Nat.div b 10) 10)).
  pose proof (B (Nat.div (Nat.div (Nat.div a 10) 10) 10)).
  pose proof (B (Nat.div (Nat.div (Nat.div b 10) 10) 10)).
  clear B.
  generalize dependent (Nat.modulo a 10).
  generalize dependent (Nat.modulo b 10).
  generalize dependent (Nat.modulo (Nat.div a 10) 10).
  generalize dependent (Nat.modulo (Nat.div b 10) 10).
  generalize dependent (Nat.modulo (Nat.div (Nat.div a 10) 10) 10).
  generalize dependent (Nat.modulo (Nat.div (Nat.div b 10) 10) 10).
  generalize dependent (Nat.modulo (Nat.div (Nat.div (Nat.div a 10) 10) 10) 10).
  generalize dependent (Nat.modulo (Nat.div (Nat.div (Nat.div b 10) 10) 10) 10).
  generalize dependent (Nat.div (Nat.div (Nat.div (Nat.div a 10) 10) 10) 10).
  generalize dependent (Nat.div (Nat.div (Nat.div (Nat.div b 10) 10) 10) 10).
  generalize dependent (Nat.div (Nat.div (Nat.div a 10) 10) 10).
  generalize dependent (Nat.div (Nat.div (Nat.div b 10) 10) 10).
  generalize dependent (Nat.div (Nat.div a 10) 10).
  generalize dependent (Nat.div (Nat.div b 10) 10).
  generalize dependent (Nat.div a 10).
  generalize dependent (Nat.div b 10).
  intros. lia.
Qed.

(** X20.  Photo names tell seconds apart and nothing finer: within one
    directory, two clock readings give the same file name exactly when they
    are the same to the second, so captures in different seconds never
    share a file and captures within one second always do. *)
Theorem photo_path_same_second dir t1 t2 :
  valid_datetime t1 ->
  valid_datetime t2 ->
  (photo_path dir t1 = photo_path dir t2 <-> t1 = t2) /\
  String.length (photo_path dir t1) = (String.length dir + 26)%nat.
Proof.
  intros (Y1 & M1 & D1 & h1 & m1 & s1) (Y2 & M2 & D2 & h2 & m2 & s2).
  split; [split; [| intro; subst; reflexivity] |].
  - intro H. unfold photo_path in H. apply append_cancel_l in H.
    destruct t1 as [y1 mo1 d1 ho1 mi1 se1], t2 as [y2 mo2 d2 ho2 mi2 se2].
    cbn [year month day hour minute second] in *.
    unfold strftime_Ymd_HMS in H. cbn [year month day hour minute second] in H.
    rewrite !pad4_equation, !pad2_equation in H. cbn [append] in H.
    assert (y1 = y2) by (apply pad4_eq; [lia | lia | rewrite !pad4_equation; congruence]).
    assert (mo1 = mo2) by (apply pad2_eq; [lia | lia | rewrite !pad2_equation; congruence]).
    assert (d1 = d2) by (apply pad2_eq; [lia | lia | rewrite !pad2_equation; congruence]).
    assert (ho1 = ho2) by (apply pad2_eq; [lia | lia | rewrite !pad2_equation; congruence]).
    assert (mi1 = mi2) by (apply pad2_eq; [lia | lia | rewrite !pad2_equation; congruence]).
    assert (se1 = se2) by (apply pad2_eq; [lia | lia | rewrite !pad2_equation; congruence]).
    congruence.
  - unfold photo_path. rewrite string_length_append. reflexivity.
Qed.

Lemma photo_path_same_second_witness :
  valid_datetime march /\
  valid_datetime (mkDateTime 2024 3 5 7 8 10) /\
  photo_path "photos" march <> photo_path "photos" (mkDateTime 2024 3 5 7 8 10).
Proof.
  assert (V1 : valid_datetime march) by (unfold valid_datetime; cbn; lia).
  assert (V2 : valid_datetime (mkDateTime 2024 3 5 7 8 10))
    by (unfold valid_datetime; cbn; lia).
  split; [exact V1 |]. split; [exact V2 |].
  intro H.
  apply (photo_path_same_second "photos" march _ V1 V2) in H.
  discriminate H.
Defined.

(** ** Failures in the middle of a capture *)

(** X21.  The switch to the still profile is not rolled back.  When, from
    a different resolution, [capture_photo] ends at [capture_file] (the call
    raised, or it wrote nothing while the preview flag was down), it
    returns [None] and the device is left in the still configuration, with
    both flags as they were. *)
Theorem capture_photo_no_rollback env s c sc path :
  applied s = Some c ->
  still_config (self s) = Some sc ->
  Size_eqb (main_size c) (main_size sc) = false ->
  last (new_events (world s) (world (after (capture_photo env) s))) EvInput
    = EvCaptureFile path ->
  result (capture_photo env) s = Return None /\
  applied (after (capture_photo env) s) = Some sc /\
  self (after (capture_photo env) s) = self s.
Proof.
  destruct s as [[pin ps ss dir cam run act pc stc] [tr cc pa si]].
  simpl_state. intros Hc Hsc Hne. subst cc stc. revert Hne.
  unfold_methods.
  split_cases; simpl_state; intro Hne; try (rewrite Hne in *; discriminate);
    normalize_trace; cbn [last]; intro H; try discriminate;
    repeat split; reflexivity.
Qed.

Lemma capture_photo_no_rollback_witness :
  let env := fails_at 18 in
  let s := session env [DoStartPreview] (constructed env) in
  let pc := preview_configuration default_preview_size in
  let sc := still_configuration default_still_size in
  applied s = Some pc /\
  still_config (self s) = Some sc /\
  Size_eqb (main_size pc) (main_size sc) = false /\
  last (new_events (world s) (world (after (capture_photo env) s))) EvInput
    = EvCaptureFile "photos/photo_20240305_070809.jpg" /\
  preview_active (self s) = true /\
  applied (after (capture_photo env) s) = Some sc.
Proof.
  intros env s pc sc.
  split; [vm_compute; reflexivity |]. split; [vm_compute; reflexivity |].
  split; [vm_compute; reflexivity |]. split; [vm_compute; reflexivity |].
  split; [vm_compute; reflexivity |].
  apply (capture_photo_no_rollback env s pc sc
           "photos/photo_20240305_070809.jpg");
    vm_compute; reflexivity.
Defined.

(** ** What a session never changes *)

Lemma call_same_self env ev s : self (after (call env ev) s) = self s.
Proof. unfold after, call. destruct (fault env _ ev); reflexivity. Qed.

(** X22.  Nothing a session does touches what the constructor set up: the
    camera handle, the photos directory, the two sizes and the two profiles
    built from them stay as they were after construction, whatever is
    called and whatever fails. *)
Theorem session_keeps_profiles env pin ps ss w s0 acts :
  PiCameraController env pin ps ss w = (Return tt, s0) ->
  picam2 (self (session env acts s0)) = Some tt /\
  photos_dir (self (session env acts s0)) = "photos" /\
  preview_size (self (session env acts s0)) = ps /\
  still_size (self (session env acts s0)) = ss /\
  preview_config (self (session env acts s0)) = preview_config (self s0) /\
  still_config (self (session env acts s0)) = still_config (self s0).
Proof.
  intro Hnew.
  destruct (PiCameraController_well_formed _ _ _ _ _ _ Hnew)
    as (Hwf & Hp & Hs).
  destruct (session_keeps_well_formed env acts s0 Hwf)
    as ((Hdir & Hcam & Hpc & Hsc & _) & Hp1 & Hs1).
  destruct Hwf as (_ & _ & Hpc0 & Hsc0 & _).
  repeat split; try assumption; try congruence.
Qed.

Lemma session_keeps_profiles_witness :
  PiCameraController working 0 default_preview_size default_still_size (bare [])
    = (Return tt, constructed working) /\
  still_config
    (self (session working [DoStartPreview; DoCapturePhoto; DoCleanup]
             (constructed working)))
    = still_config (self (constructed working)).
Proof.
  split; [vm_compute; reflexivity |].
  apply (session_keeps_profiles working 0 default_preview_size
           default_still_size (bare []) (constructed working)).
  vm_compute. reflexivity.
Defined.

(** ** One photo per [c] command *)









